(** * caishenmiao: the signal parser and the scoring engine

    A shallow embedding of [lib/scoring.ts] (calculateScore) and of the
    free-text parser (parseSignalText, normalizeRecord, normalizeCode and
    the extract* heuristics), with the parts of the ECMAScript runtime they
    rest on: strings as sequences of UTF-16 code units, numbers as IEEE 754
    binary64 values, loosely typed values, JSON.parse, and exceptions as an
    error monad. *)

From Stdlib Require Import String Ascii.
From Stdlib Require Import List ZArith NArith Bool Lia.
From Stdlib Require Import Sorting.Permutation Sorting.Sorted.
From Stdlib Require Import Floats.SpecFloat.
Import ListNotations.

Set Implicit Arguments.

(* ================================================================== *)
(** * Strings *)
(* ================================================================== *)

(** A JavaScript string is a sequence of UTF-16 code units. *)
Definition unit16 := N.
Definition jsstring := list unit16.

(** ** String literals

    [js] reads a literal of this file (UTF-8 bytes) the way the TypeScript
    compiler reads a source literal: UTF-8 is decoded to code points, the
    escapes [\n], [\t], [\r], [\\] and [\uXXXX] are interpreted, and code
    points are encoded in UTF-16. *)

Fixpoint bytes_of (s : string) : list N :=
  match s with
  | EmptyString => []
  | String a r => N_of_ascii a :: bytes_of r
  end.

Definition cont (b : N) : N := N.land b 63.

Fixpoint utf8_decode (bs : list N) : list N :=
  match bs with
  | [] => []
  | b0 :: r =>
    if (b0 <? 128)%N then b0 :: utf8_decode r
    else if (b0 <? 224)%N then
      match r with
      | b1 :: r1 => (N.land b0 31 * 64 + cont b1)%N :: utf8_decode r1
      | [] => []
      end
    else if (b0 <? 240)%N then
      match r with
      | b1 :: b2 :: r2 =>
        (N.land b0 15 * 4096 + cont b1 * 64 + cont b2)%N :: utf8_decode r2
      | _ => []
      end
    else
      match r with
      | b1 :: b2 :: b3 :: r3 =>
        (N.land b0 7 * 262144 + cont b1 * 4096 + cont b2 * 64 + cont b3)%N
          :: utf8_decode r3
      | _ => []
      end
  end.

Definition hex_digit (c : N) : option N :=
  if ((48 <=? c) && (c <=? 57))%N then Some (c - 48)%N
  else if ((97 <=? c) && (c <=? 102))%N then Some (c - 87)%N
  else if ((65 <=? c) && (c <=? 70))%N then Some (c - 55)%N
  else None.

Definition hex4 (a b c d : N) : option N :=
  match hex_digit a, hex_digit b, hex_digit c, hex_digit d with
  | Some x, Some y, Some z, Some w => Some (x * 4096 + y * 256 + z * 16 + w)%N
  | _, _, _, _ => None
  end.

Definition escape_of (c : N) : option N :=
  if (c =? 110)%N then Some 10%N
  else if (c =? 116)%N then Some 9%N
  else if (c =? 114)%N then Some 13%N
  else if (c =? 92)%N then Some 92%N
  else None.

Fixpoint unescape (cs : list N) : list N :=
  match cs with
  | [] => []
  | c :: r =>
    if negb (c =? 92)%N then c :: unescape r
    else
      match r with
      | e :: r1 =>
        match escape_of e with
        | Some u => u :: unescape r1
        | None =>
          match r1 with
          | x :: y :: z :: w :: r2 =>
            match (if (e =? 117)%N then hex4 x y z w else None) with
            | Some u => u :: unescape r2
            | None => c :: unescape r
            end
          | _ => c :: unescape r
          end
        end
      | [] => [c]
      end
  end.

Definition utf16_encode (cs : list N) : jsstring :=
  flat_map (fun c =>
    if (c <? 65536)%N then [c]
    else [(55296 + (c - 65536) / 1024)%N; (56320 + (c - 65536) mod 1024)%N]) cs.

Definition js (s : string) : jsstring :=
  utf16_encode (unescape (utf8_decode (bytes_of s))).

(** ** Character classes *)

(** WhiteSpace and LineTerminator of ECMAScript: what [trim] strips and
    what [\s] matches. *)
Definition is_ws (c : unit16) : bool :=
  ((9 <=? c) && (c <=? 13) || (c =? 32) || (c =? 160) || (c =? 5760)
   || (8192 <=? c) && (c <=? 8202) || (c =? 8232) || (c =? 8233)
   || (c =? 8239) || (c =? 8287) || (c =? 12288) || (c =? 65279))%N.

(** LineTerminator: what [.] does not match. *)
Definition is_line_terminator (c : unit16) : bool :=
  ((c =? 10) || (c =? 13) || (c =? 8232) || (c =? 8233))%N.

(** [\d] *)
Definition is_digit (c : unit16) : bool := ((48 <=? c) && (c <=? 57))%N.

(** The character class of a one-unit literal: [is_unit c u] reads [u === c]. *)
Definition is_unit (c u : unit16) : bool := (u =? c)%N.

Definition LF : unit16 := 10%N.

(** ** Operations of String.prototype *)

Definition str_eqb (a b : jsstring) : bool :=
  if list_eq_dec N.eq_dec a b then true else false.

Definition nonempty (s : jsstring) : bool :=
  match s with [] => false | _ => true end.

Fixpoint trimStart (s : jsstring) : jsstring :=
  match s with
  | c :: r => if is_ws c then trimStart r else s
  | [] => []
  end.

Definition trimEnd (s : jsstring) : jsstring := rev (trimStart (rev s)).

Definition trim (s : jsstring) : jsstring := trimEnd (trimStart s).

Fixpoint startsWith (s p : jsstring) : bool :=
  match p, s with
  | [], _ => true
  | _ :: _, [] => false
  | a :: p', b :: s' => (a =? b)%N && startsWith s' p'
  end.

Fixpoint includes (s sub : jsstring) : bool :=
  startsWith s sub || match s with [] => false | _ :: r => includes r sub end.

(** [s.split(c)] for a one-unit separator, and [s.split(/[class]/)] for a
    one-unit character class: the pieces between the separators; the
    empty string gives one piece, itself. *)
Fixpoint split_on (p : unit16 -> bool) (s : jsstring) : list jsstring :=
  match s with
  | [] => [[]]
  | c :: r =>
    if p c then [] :: split_on p r
    else match split_on p r with
         | piece :: pieces => (c :: piece) :: pieces
         | [] => [[c]]
         end
  end.

(** [s.replace(/[class]/g, empty)]: every unit of the class goes. *)
Definition remove_all (p : unit16 -> bool) (s : jsstring) : jsstring :=
  filter (fun c => negb (p c)) s.

(** [s.replace(c, empty)] with a one-unit string pattern: only the first
    occurrence goes. *)
Fixpoint remove_first (c : unit16) (s : jsstring) : jsstring :=
  match s with
  | [] => []
  | x :: r => if (x =? c)%N then r else x :: remove_first c r
  end.

(** [s.padStart(n, "0")] *)
Definition padStart0 (n : nat) (s : jsstring) : jsstring :=
  repeat 48%N (n - length s) ++ s.

Fixpoint take_while (p : unit16 -> bool) (s : jsstring) : jsstring :=
  match s with
  | c :: r => if p c then c :: take_while p r else []
  | [] => []
  end.

Fixpoint drop_while (p : unit16 -> bool) (s : jsstring) : jsstring :=
  match s with
  | c :: r => if p c then drop_while p r else s
  | [] => []
  end.

(* ================================================================== *)
(** * Numbers *)
(* ================================================================== *)

(** A JavaScript number is an IEEE 754 binary64 value; [spec_float] is the
    Standard Library's specification of them, with one NaN as in
    JavaScript. Every number below is built by [binary_normalize] or
    [SFdiv], which round to nearest, ties to even, and return canonical
    mantissa and exponent. *)
Definition number := spec_float.

Definition prec : Z := 53.
Definition emax : Z := 1024.

Definition NaN : number := S754_nan.

(** The number of an integer literal. *)
Definition of_Z (z : Z) : number := binary_normalize prec emax z 0 false.

(** The number nearest to [m * 10 ^ e], the mathematical value of a decimal
    literal with digits [m] and exponent [e]. *)
Definition of_decimal (neg : bool) (m e : Z) : number :=
  match m with
  | Zpos mp =>
    match e with
    | Zneg ep =>
      SFdiv prec emax (S754_finite neg mp 0)
                      (S754_finite false (Pos.pow 10 ep) 0)
    | _ => binary_normalize prec emax ((if neg then -m else m) * 10 ^ e) 0 neg
    end
  | _ => S754_zero neg
  end.

Definition isNaN (x : number) : bool :=
  match x with S754_nan => true | _ => false end.

(** [a >= b]: false when either side is NaN. *)
Definition num_ge (a b : number) : bool := SFleb b a.

(** ToBoolean of a number: [+0], [-0] and [NaN] are falsy. *)
Definition num_truthy (x : number) : bool :=
  match x with
  | S754_zero _ | S754_nan => false
  | _ => true
  end.

Definition digitsZ (ds : jsstring) : Z :=
  fold_left (fun acc c => (10 * acc + (Z.of_N c - 48))%Z) ds 0%Z.

(** An ExponentPart at the head of [r], if there is a whole one: the
    exponent it denotes, and 0 otherwise. *)
Definition exponent_of (r : jsstring) : Z :=
  match r with
  | c :: r1 =>
    if ((c =? 101) || (c =? 69))%N then
      let '(neg, r2) :=
        match r1 with
        | sg :: r2 =>
          if (sg =? 45)%N then (true, r2)
          else if (sg =? 43)%N then (false, r2)
          else (false, r1)
        | [] => (false, r1)
        end in
      let ds := take_while is_digit r2 in
      if nonempty ds then (if neg then - digitsZ ds else digitsZ ds)%Z else 0%Z
    else 0%Z
  | [] => 0%Z
  end.

(** [parseFloat(s)]: leading white space is skipped, and the longest prefix
    that is a StrDecimalLiteral is read; [NaN] when there is none. *)
Definition parseFloat (s : jsstring) : number :=
  let t := trimStart s in
  let '(neg, u) :=
    match t with
    | c :: r =>
      if (c =? 45)%N then (true, r)
      else if (c =? 43)%N then (false, r)
      else (false, t)
    | [] => (false, t)
    end in
  if startsWith u (js "Infinity") then S754_infinity neg
  else
    let ip := take_while is_digit u in
    let r1 := drop_while is_digit u in
    match ip with
    | _ :: _ =>
      match r1 with
      | dot :: r2 =>
        if (dot =? 46)%N then
          let fp := take_while is_digit r2 in
          let r3 := drop_while is_digit r2 in
          of_decimal neg (digitsZ (ip ++ fp))
                     (exponent_of r3 - Z.of_nat (length fp))
        else of_decimal neg (digitsZ ip) (exponent_of r1)
      | [] => of_decimal neg (digitsZ ip) 0
      end
    | [] =>
      match u with
      | dot :: r2 =>
        let fp := take_while is_digit r2 in
        let r3 := drop_while is_digit r2 in
        if (dot =? 46)%N && nonempty fp then
          of_decimal neg (digitsZ fp) (exponent_of r3 - Z.of_nat (length fp))
        else NaN
      | [] => NaN
      end
    end.

(** ** Number::toString

    The decimal text of a number, as ECMAScript defines it for radix 10:
    the digits are those of the shortest decimal that reads back as the
    number, and among several of that length the nearest one. *)

Fixpoint uint_units (u : Decimal.uint) : jsstring :=
  match u with
  | Decimal.Nil => []
  | Decimal.D0 r => 48%N :: uint_units r
  | Decimal.D1 r => 49%N :: uint_units r
  | Decimal.D2 r => 50%N :: uint_units r
  | Decimal.D3 r => 51%N :: uint_units r
  | Decimal.D4 r => 52%N :: uint_units r
  | Decimal.D5 r => 53%N :: uint_units r
  | Decimal.D6 r => 54%N :: uint_units r
  | Decimal.D7 r => 55%N :: uint_units r
  | Decimal.D8 r => 56%N :: uint_units r
  | Decimal.D9 r => 57%N :: uint_units r
  end.

(** The decimal digits of a natural number. *)
Definition digits_of (z : Z) : jsstring := uint_units (N.to_uint (Z.to_N z)).

(** [m * 2 ^ e] as a fraction of two positive integers scaled by
    [10 ^ (- d)]: numerator and denominator of [m * 2 ^ e / 10 ^ d]. *)
Definition scaled (m : positive) (e d : Z) : Z * Z :=
  ((Zpos m * 2 ^ Z.max e 0 * 10 ^ Z.max (- d) 0)%Z,
   (2 ^ Z.max (- e) 0 * 10 ^ Z.max d 0)%Z).

(** The least [n] with [m * 2 ^ e < 10 ^ n]. It is sought around
    [bits * log10 2], where [2 ^ bits] is the power of two next above the
    number, so three steps either way are enough. *)
Definition decimal_exponent (m : positive) (e : Z) : Z :=
  let bits := (Zpos (digits2_pos m) + e)%Z in
  let near := (bits * 30103 / 100000)%Z in
  match find (fun n => let '(a, b) := scaled m e n in (a <? b)%Z)
             (map (fun i => (near - 3 + Z.of_nat i)%Z) (seq 0 7)) with
  | Some n => n
  | None => (near + 4)%Z
  end.

Fixpoint first_some {A} (f : nat -> option A) (ks : list nat) : option A :=
  match ks with
  | [] => None
  | k :: r =>
    match f k with
    | Some a => Some a
    | None => first_some f r
    end
  end.

(** The digits [s] and the exponent [d] of the shortest [s * 10 ^ d] that
    reads back as [m * 2 ^ e], tried with 1, 2, ... 17 digits. *)
Definition shortest_decimal (m : positive) (e : Z) : Z * Z :=
  let x := S754_finite false m e in
  let n0 := decimal_exponent m e in
  let candidate (k : nat) : option (Z * Z) :=
    let d := (n0 - Z.of_nat k)%Z in
    let '(a, b) := scaled m e d in
    let lo := (a / b)%Z in
    let hi := (lo + 1)%Z in
    let ok (s : Z) := SFeqb (of_decimal false s d) x in
    match ok lo, ok hi with
    | true, true =>
      match (2 * a ?= (2 * lo + 1) * b)%Z with
      | Lt => Some (lo, d)
      | Gt => Some (hi, d)
      | Eq => Some (if Z.even lo then lo else hi, d)
      end
    | true, false => Some (lo, d)
    | false, true => Some (hi, d)
    | false, false => None
    end in
  match first_some candidate (seq 1 17) with
  | Some sd => sd
  | None => (Zpos m, 0%Z)
  end.

(** Trailing zeros go from the digits to the exponent. *)
Fixpoint strip_zeros (ds : jsstring) (d : Z) : jsstring * Z :=
  match ds with
  | [] => ([], d)
  | c :: r =>
    match strip_zeros r d with
    | ([], d') => if (c =? 48)%N then ([], d' + 1)%Z else ([c], d')
    | (r', d') => (c :: r', d')
    end
  end.

Definition Number_toString (x : number) : jsstring :=
  match x with
  | S754_nan => js "NaN"
  | S754_zero _ => js "0"
  | S754_infinity neg => (if neg then js "-" else []) ++ js "Infinity"
  | S754_finite neg m e =>
    let '(s, d) := shortest_decimal m e in
    let '(ds, d) := strip_zeros (digits_of s) d in
    let k := Z.of_nat (length ds) in
    let n := (k + d)%Z in
    (if neg then js "-" else []) ++
    (if ((k <=? n) && (n <=? 21))%Z then
       ds ++ repeat 48%N (Z.to_nat (n - k))
     else if ((0 <? n) && (n <=? 21))%Z then
       firstn (Z.to_nat n) ds ++ js "." ++ skipn (Z.to_nat n) ds
     else if ((-6 <? n) && (n <=? 0))%Z then
       js "0." ++ repeat 48%N (Z.to_nat (- n)) ++ ds
     else
       let ex := (if (0 <=? n - 1)%Z then js "+" else js "-")
                   ++ digits_of (Z.abs (n - 1)) in
       match ds with
       | [c] => [c] ++ js "e" ++ ex
       | c :: r => [c] ++ js "." ++ r ++ js "e" ++ ex
       | [] => []
       end)
  end.

(* ================================================================== *)
(** * Values, exceptions and the host *)
(* ================================================================== *)

(** What a [Record<string, unknown>] can hold at run time. An object is
    its list of own properties, each key once. *)
#[warnings="-register-all"]
Inductive value :=
| VUndefined
| VNull
| VBool (b : bool)
| VNumber (x : number)
| VString (s : jsstring)
| VArray (items : list value)
| VObject (props : list (jsstring * value)).

Inductive exn := TypeError | SyntaxError.

(** A computation that returns or throws. *)
Inductive result (A : Type) :=
| Ok (a : A)
| Throw (e : exn).
Arguments Ok {A} a.
Arguments Throw {A} e.

Definition bind {A B} (m : result A) (k : A -> result B) : result B :=
  match m with
  | Ok a => k a
  | Throw e => Throw e
  end.

Notation "x <- m ;; k" := (bind m (fun x => k))
  (at level 61, m at next level, right associativity).

(** [try { body } catch { handler }] *)
Definition try_catch {A} (body : result A) (handler : result A) : result A :=
  match body with
  | Ok a => Ok a
  | Throw _ => handler
  end.

Fixpoint mapM {A B} (f : A -> result B) (l : list A) : result (list B) :=
  match l with
  | [] => Ok []
  | a :: r => b <- f a ;; bs <- mapM f r ;; Ok (b :: bs)
  end.

(** The Basic Latin letters [A-Z] go to [a-z]. *)
Definition lower_unit (c : unit16) : unit16 :=
  if ((65 <=? c) && (c <=? 90))%N then (c + 32)%N else c.

(** Basic Latin and the CJK Unified Ideographs block. *)
Definition plain_unit (c : unit16) : bool :=
  ((c <? 128) || (19968 <=? c) && (c <=? 40959))%N.

(** The builtins the code calls and this development does not define:
    - [toLowerCase]: String.prototype.toLowerCase, the Unicode lower-case
      mapping, of which only its action on Basic Latin and CJK text is
      stated;
    - [numberToString]: Number::toString, the shortest decimal that reads
      back as the number;
    - [currentDate]: [new Date().toISOString().slice(0, 10)]. *)
Class Host := {
  toLowerCase : jsstring -> jsstring;
  numberToString : number -> jsstring;
  currentDate : jsstring;
  toLowerCase_plain :
    forall s, forallb plain_unit s = true -> toLowerCase s = map lower_unit s
}.

(** A host whose [toLowerCase] knows Basic Latin only; it shows the class
    inhabited, and the examples below run on it. *)
Definition sample_host : Host := {|
  toLowerCase := map lower_unit;
  numberToString := Number_toString;
  currentDate := js "2025-01-01";
  toLowerCase_plain := fun s _ => eq_refl
|}.

Section Runtime.
Context {host : Host}.

Definition lookup (props : list (jsstring * value)) (k : jsstring) : option value :=
  match find (fun kv => str_eqb (fst kv) k) props with
  | Some kv => Some (snd kv)
  | None => None
  end.

(** [obj[k] = v] on an ordinary object. *)
Fixpoint assign (props : list (jsstring * value)) (k : jsstring) (v : value)
  : list (jsstring * value) :=
  match props with
  | [] => [(k, v)]
  | (k', v') :: r =>
    if str_eqb k' k then (k', v) :: r else (k', v') :: assign r k v
  end.

(** [raw.k] for the keys the parser reads (date, code, name, sector,
    sector_pattern, turnover, chg, amount, debt_ratio), none of which is a
    property of a builtin prototype: an own property of an object,
    [undefined] on any other value, and a TypeError on [null] and
    [undefined]. *)
Definition get (raw : value) (k : jsstring) : result value :=
  match raw with
  | VUndefined | VNull => Throw TypeError
  | VObject props =>
    match lookup props k with
    | Some v => Ok v
    | None => Ok VUndefined
    end
  | _ => Ok VUndefined
  end.

(** ToBoolean *)
Definition truthy (v : value) : bool :=
  match v with
  | VUndefined | VNull => false
  | VBool b => b
  | VNumber x => num_truthy x
  | VString s => nonempty s
  | VArray _ | VObject _ => true
  end.

(** [v || empty]: the value if it is truthy, the empty string if not. *)
Definition or_empty (v : value) : value :=
  if truthy v then v else VString [].

(** [String(v)]. An array is joined with commas, [null] and [undefined]
    elements printing as nothing. An object prints through
    Object.prototype.toString, unless it has an own property [toString]:
    that one is not callable (the object came out of JSON.parse), and the
    conversion throws. *)
Fixpoint ToString (v : value) : result jsstring :=
  match v with
  | VUndefined => Ok (js "undefined")
  | VNull => Ok (js "null")
  | VBool b => Ok (if b then js "true" else js "false")
  | VNumber x => Ok (numberToString x)
  | VString s => Ok s
  | VArray items =>
    let element (x : value) : result jsstring :=
      match x with
      | VUndefined | VNull => Ok []
      | _ => ToString x
      end in
    (fix join (l : list value) : result jsstring :=
       match l with
       | [] => Ok []
       | [x] => element x
       | x :: r => a <- element x ;; b <- join r ;; Ok (a ++ js "," ++ b)
       end) items
  | VObject props =>
    match lookup props (js "toString") with
    | Some _ => Throw TypeError
    | None => Ok (js "[object Object]")
    end
  end.

End Runtime.

(* ================================================================== *)
(** * JSON.parse *)
(* ================================================================== *)

(** The JSON grammar of ECMA-404 as two automata: a lexer over code units
    and a parser over tokens that keeps the open arrays and objects on a
    stack. Both read their input once, from left to right. *)

Inductive token :=
| TLBracket | TRBracket | TLBrace | TRBrace | TComma | TColon
| TScalar (v : value).

(** A JSON number: an optional minus sign; an integer part, one digit or
    several that do not start with 0; an optional fraction, a dot and at
    least one digit; an optional exponent, [e] or [E], an optional sign and
    at least one digit; and nothing after it. Its value is what
    [parseFloat] reads. *)
Definition json_number (w : jsstring) : option number :=
  let u := match w with
           | c :: r => if (c =? 45)%N then r else w
           | [] => w
           end in
  let ip := take_while is_digit u in
  let r1 := drop_while is_digit u in
  let int_ok := match ip with
                | [] => false
                | [_] => true
                | d :: _ => negb (d =? 48)%N
                end in
  let '(frac_ok, r3) :=
    match r1 with
    | dot :: r2 =>
      if (dot =? 46)%N
      then (nonempty (take_while is_digit r2), drop_while is_digit r2)
      else (true, r1)
    | [] => (true, r1)
    end in
  let exp_ok :=
    match r3 with
    | [] => true
    | e :: r4 =>
      ((e =? 101) || (e =? 69))%N &&
      (let r5 := match r4 with
                 | sg :: r => if ((sg =? 43) || (sg =? 45))%N then r else r4
                 | [] => r4
                 end in
       nonempty r5 && forallb is_digit r5)
    end in
  if int_ok && frac_ok && exp_ok then Some (parseFloat w) else None.

(** The token of a run of letters, digits, signs and dots. *)
Definition word_token (w : jsstring) : option token :=
  if str_eqb w (js "true") then Some (TScalar (VBool true))
  else if str_eqb w (js "false") then Some (TScalar (VBool false))
  else if str_eqb w (js "null") then Some (TScalar VNull)
  else match json_number w with
       | Some x => Some (TScalar (VNumber x))
       | None => None
       end.

Definition is_word_unit (c : unit16) : bool :=
  (is_digit c || (97 <=? c) && (c <=? 122) || (65 <=? c) && (c <=? 90)
   || (c =? 43) || (c =? 45) || (c =? 46))%N.

Definition is_json_ws (c : unit16) : bool :=
  ((c =? 9) || (c =? 10) || (c =? 13) || (c =? 32))%N.

(** Where the lexer stands: between tokens, inside a word, inside a string
    (what was read of it, last unit first), after a backslash, or inside
    the four hexadecimal digits of a [\u] escape. *)
Inductive lexmode :=
| LIdle
| LWord (acc : jsstring)
| LStr (acc : jsstring)
| LEsc (acc : jsstring)
| LHex (acc : jsstring) (digits : list N).

Definition lex_idle (c : unit16) (toks : list token)
  : option (lexmode * list token) :=
  if is_json_ws c then Some (LIdle, toks)
  else if (c =? 91)%N then Some (LIdle, TLBracket :: toks)
  else if (c =? 93)%N then Some (LIdle, TRBracket :: toks)
  else if (c =? 123)%N then Some (LIdle, TLBrace :: toks)
  else if (c =? 125)%N then Some (LIdle, TRBrace :: toks)
  else if (c =? 44)%N then Some (LIdle, TComma :: toks)
  else if (c =? 58)%N then Some (LIdle, TColon :: toks)
  else if (c =? 34)%N then Some (LStr [], toks)
  else if is_word_unit c then Some (LWord [c], toks)
  else None.

Definition json_escape (c : unit16) : option unit16 :=
  if ((c =? 34) || (c =? 92) || (c =? 47))%N then Some c
  else if (c =? 98)%N then Some 8%N
  else if (c =? 102)%N then Some 12%N
  else if (c =? 110)%N then Some 10%N
  else if (c =? 114)%N then Some 13%N
  else if (c =? 116)%N then Some 9%N
  else None.

(** One code unit; the tokens are kept last token first. *)
Definition lex_step (st : lexmode * list token) (c : unit16)
  : option (lexmode * list token) :=
  let '(mode, toks) := st in
  match mode with
  | LIdle => lex_idle c toks
  | LWord acc =>
    if is_word_unit c then Some (LWord (c :: acc), toks)
    else match word_token (rev acc) with
         | Some t => lex_idle c (t :: toks)
         | None => None
         end
  | LStr acc =>
    if (c =? 34)%N then Some (LIdle, TScalar (VString (rev acc)) :: toks)
    else if (c =? 92)%N then Some (LEsc acc, toks)
    else if (c <? 32)%N then None
    else Some (LStr (c :: acc), toks)
  | LEsc acc =>
    if (c =? 117)%N then Some (LHex acc [], toks)
    else match json_escape c with
         | Some u => Some (LStr (u :: acc), toks)
         | None => None
         end
  | LHex acc ds =>
    match hex_digit c with
    | Some d =>
      match ds with
      | [x; y; z] => Some (LStr ((x * 4096 + y * 256 + z * 16 + d)%N :: acc), toks)
      | _ => Some (LHex acc (ds ++ [d]), toks)
      end
    | None => None
    end
  end.

Fixpoint lex_from (st : lexmode * list token) (s : jsstring)
  : option (list token) :=
  match s with
  | c :: r =>
    match lex_step st c with
    | Some st' => lex_from st' r
    | None => None
    end
  | [] =>
    match st with
    | (LIdle, toks) => Some (rev toks)
    | (LWord acc, toks) =>
      match word_token (rev acc) with
      | Some t => Some (rev (t :: toks))
      | None => None
      end
    | _ => None
    end
  end.

(** An open array with its elements so far (last first), or an open object
    with its properties so far and the key whose value is awaited. *)
Inductive frame :=
| FArray (done : list value)
| FObject (props : list (jsstring * value)) (key : jsstring).

(** What the parser awaits. *)
Inductive pmode :=
| MValue | MValueOrClose | MKeyOrClose | MKey | MColon | MNext
| MDone (v : value).

(** A value is complete: it goes into the innermost open container. A
    repeated key keeps its place and takes the later value. *)
Definition complete (stk : list frame) (v : value) : list frame * pmode :=
  match stk with
  | [] => ([], MDone v)
  | FArray done :: st => (FArray (v :: done) :: st, MNext)
  | FObject props k :: st => (FObject (assign props k v) k :: st, MNext)
  end.

Definition parse_step (st : list frame * pmode) (t : token)
  : option (list frame * pmode) :=
  let '(stk, m) := st in
  match m with
  | MValue | MValueOrClose =>
    match t with
    | TScalar v => Some (complete stk v)
    | TLBracket => Some (FArray [] :: stk, MValueOrClose)
    | TLBrace => Some (FObject [] [] :: stk, MKeyOrClose)
    | TRBracket =>
      match m, stk with
      | MValueOrClose, FArray [] :: st => Some (complete st (VArray []))
      | _, _ => None
      end
    | _ => None
    end
  | MKeyOrClose | MKey =>
    match t with
    | TScalar (VString k) =>
      match stk with
      | FObject props _ :: st => Some (FObject props k :: st, MColon)
      | _ => None
      end
    | TRBrace =>
      match m, stk with
      | MKeyOrClose, FObject props _ :: st => Some (complete st (VObject props))
      | _, _ => None
      end
    | _ => None
    end
  | MColon =>
    match t with
    | TColon => Some (stk, MValue)
    | _ => None
    end
  | MNext =>
    match t, stk with
    | TComma, FArray _ :: _ => Some (stk, MValue)
    | TComma, FObject _ _ :: _ => Some (stk, MKey)
    | TRBracket, FArray done :: st => Some (complete st (VArray (rev done)))
    | TRBrace, FObject props _ :: st => Some (complete st (VObject props))
    | _, _ => None
    end
  | MDone _ => None
  end.

Fixpoint parse_from (st : list frame * pmode) (ts : list token)
  : option value :=
  match ts with
  | t :: r =>
    match parse_step st t with
    | Some st' => parse_from st' r
    | None => None
    end
  | [] =>
    match st with
    | ([], MDone v) => Some v
    | _ => None
    end
  end.

(** [JSON.parse(text)]: the value, or a SyntaxError. *)
Definition JSON_parse (text : jsstring) : result value :=
  match lex_from (LIdle, []) text with
  | Some ts =>
    match parse_from ([], MValue) ts with
    | Some v => Ok v
    | None => Throw SyntaxError
    end
  | None => Throw SyntaxError
  end.

(* ================================================================== *)
(** * lib/scoring.ts *)
(* ================================================================== *)

(** The two values of [sector_pattern] besides [null]: [PatternA] is
    the label 水下拉水上 and [PatternB] the label 波动三角收窄. *)
Inductive pattern := PatternA | PatternB.

(** The two fields of a [Partial<SignalRecord>] that calculateScore reads.
    [None] is [null] or [undefined]: the code tells them apart nowhere
    ([=== null || === undefined], [!= null]). *)
Record ScoreInput := {
  in_sector_pattern : option pattern;
  in_turnover : option number
}.

(** What calculateScore returns. The score is a small integer, which
    binary64 holds exactly; it is kept in [Z]. *)
Record Score := {
  cs_score : Z;
  cs_reason : list jsstring
}.

Section Scoring.
Context {host : Host}.

(** The state of the function body: [score] and [reasons]. *)
Definition scoring := (Z * list jsstring)%type.

(** [score += n; reasons.push(msg)] *)
Definition award (n : Z) (msg : jsstring) (st : scoring) : scoring :=
  (fst st + n, snd st ++ [msg])%Z.

(** [reasons.push(msg)] *)
Definition note (msg : jsstring) (st : scoring) : scoring :=
  (fst st, snd st ++ [msg]).

(** Base: sector_pattern *)
Definition sector_rule (sp : option pattern) (st : scoring) : scoring :=
  match sp with
  | Some PatternA => award 30 (js "板块分时：水下拉水上 +30") st
  | Some PatternB => award 20 (js "板块分时：波动三角收窄 +20") st
  | None => note (js "板块分时信息缺失") st
  end.

(** Turnover scoring *)
Definition turnover_rule (t : option number) (st : scoring) : scoring :=
  match t with
  | Some x =>
    if num_ge x (of_Z 8) then
      award 30 (js "换手率" ++ numberToString x ++ js "% >= 8% +30") st
    else if num_ge x (of_Z 5) then
      award 20 (js "换手率" ++ numberToString x ++ js "% >= 5% +20") st
    else if num_ge x (of_Z 3) then
      award 10 (js "换手率" ++ numberToString x ++ js "% >= 3% +10") st
    else st
  | None => note (js "换手率信息缺失") st
  end.

(** The state after both rules, before the clamp. *)
Definition rule_total (r : ScoreInput) : scoring :=
  turnover_rule (in_turnover r) (sector_rule (in_sector_pattern r) (0%Z, [])).

(** [Math.max(0, Math.min(100, score))] *)
Definition clamp (score : Z) : Z := Z.max 0 (Z.min 100 score).

Definition calculateScore (r : ScoreInput) : Score :=
  let '(score, reasons) := rule_total r in
  let score := clamp score in
  let reasons :=
    if (length reasons =? 0)%nat
    then reasons ++ [js "信息不足/需补字段"]
    else reasons in
  {| cs_score := score; cs_reason := reasons |}.

End Scoring.

(* ================================================================== *)
(** * The parser *)
(* ================================================================== *)

(** A SignalRecord as the parser builds it. The declared type of [date] is
    [string] and that of [sector] is [string[]]; a JSON input can put any
    value there, since the code casts without checking. *)
Record SignalRecord := {
  date : value;
  code : jsstring;
  name : jsstring;
  sector : list value;
  sector_pattern : option pattern;
  turnover : option number;
  chg : option number;
  amount : option number;
  debt_ratio : option number;
  score : Z;
  reason : list jsstring
}.

(** A character class [[...]] given by its members. *)
Definition in_class (members : jsstring) (c : unit16) : bool :=
  existsb (N.eqb c) members.

(** [[一-龥]] *)
Definition is_cjk (c : unit16) : bool := ((19968 <=? c) && (c <=? 40869))%N.

(** [[一-龥A-Za-z]] *)
Definition is_cjk_or_letter (c : unit16) : bool :=
  (is_cjk c || (65 <=? c) && (c <=? 90) || (97 <=? c) && (c <=? 122))%N.

Definition TAB : unit16 := 9%N.
Definition PIPE : unit16 := 124%N.
Definition COMMA : unit16 := 44%N.
Definition PERCENT : unit16 := 37%N.

(** The object literal of mapHeaderToKey. *)
Definition header_map : list (jsstring * jsstring) :=
  [ (js "日期", js "date");
    (js "date", js "date");
    (js "代码", js "code");
    (js "股票代码", js "code");
    (js "code", js "code");
    (js "名称", js "name");
    (js "股票", js "name");
    (js "简称", js "name");
    (js "name", js "name");
    (js "股票简称", js "name");
    (js "板块", js "sector");
    (js "概念", js "sector");
    (js "sector", js "sector");
    (js "水下拉水上", js "sector_pattern");
    (js "波动三角收窄", js "sector_pattern");
    (js "板块分时", js "sector_pattern");
    (js "信号", js "sector_pattern");
    (js "换手率", js "turnover");
    (js "换手", js "turnover");
    (js "turnover", js "turnover");
    (js "触发时间", js "trigger_time");
    (js "时间", js "trigger_time");
    (js "trigger_time", js "trigger_time");
    (js "涨跌幅", js "chg");
    (js "涨幅", js "chg");
    (js "chg", js "chg");
    (js "成交额", js "amount");
    (js "amount", js "amount");
    (js "资产负债率", js "debt_ratio");
    (js "debt_ratio", js "debt_ratio") ].

(** The methods an object literal inherits from Object.prototype. *)
Definition object_methods : list jsstring :=
  [ js "constructor"; js "hasOwnProperty"; js "isPrototypeOf";
    js "propertyIsEnumerable"; js "toLocaleString"; js "toString";
    js "valueOf"; js "__defineGetter__"; js "__defineSetter__";
    js "__lookupGetter__"; js "__lookupSetter__" ].

Section Parser.
Context {host : Host}.

(** [map[h] || null], read as the property key under which the caller
    stores the cell. The object literal inherits from Object.prototype, so
    [map[h]] is also truthy when [h] names one of its methods or is
    [__proto__]; the caller's [raw[key] = ...] then writes a property named
    by the text of the function, or [[object Object]]. None of these keys is
    one that normalizeRecord reads. *)
Definition mapHeaderToKey (header : jsstring) : option jsstring :=
  let h := trim (toLowerCase header) in
  match find (fun kv => str_eqb (fst kv) h) header_map with
  | Some kv => Some (snd kv)
  | None =>
    if existsb (str_eqb h) object_methods
    then Some (js "function " ++ h ++ js "() { [native code] }")
    else if str_eqb h (js "__proto__") then Some (js "[object Object]")
    else None
  end.

Definition parseSectorPattern (val : value) : result (option pattern) :=
  str <- ToString (or_empty val) ;;
  let s := trim str in
  if str_eqb s (js "水下拉水上") then Ok (Some PatternA)
  else if str_eqb s (js "波动三角收窄") then Ok (Some PatternB)
  else if str_eqb s (js "true") || str_eqb s (js "是")
          || str_eqb s (js "1") || str_eqb s (js "yes")
  then Ok (Some PatternA)
  else Ok None.

Definition normalizeCode (code : value) : result jsstring :=
  if negb (truthy code) then Ok []
  else
    str <- ToString code ;;
    Ok (padStart0 6 (remove_all (fun c => negb (is_digit c)) str)).

(** [x || null] on a number. *)
Definition or_null (x : number) : option number :=
  if num_truthy x then Some x else None.

(** [v.trim()]: a method of strings only. *)
Definition call_trim (v : value) : result jsstring :=
  match v with
  | VString s => Ok (trim s)
  | _ => Throw TypeError
  end.

(** [parseFloat(String(v || empty).replace(percent, empty)) || null] *)
Definition percentField (v : value) : result (option number) :=
  str <- ToString (or_empty v) ;;
  Ok (or_null (parseFloat (remove_first PERCENT str))).

Definition normalizeRecord (raw : value) (defaultDate : option jsstring)
  : result SignalRecord :=
  raw_date <- get raw (js "date") ;;
  let date :=
    if truthy raw_date then raw_date
    else match defaultDate with
         | Some d => if nonempty d then VString d else VString currentDate
         | None => VString currentDate
         end in
  raw_code <- get raw (js "code") ;;
  code <- normalizeCode raw_code ;;
  raw_name <- get raw (js "name") ;;
  name <- call_trim (or_empty raw_name) ;;
  raw_sector <- get raw (js "sector") ;;
  let sector :=
    match raw_sector with
    | VString s =>
      map VString
          (filter nonempty (map trim (split_on (in_class (js ",，、")) s)))
    | VArray items => items
    | _ => []
    end in
  raw_pattern <- get raw (js "sector_pattern") ;;
  sectorPattern <- parseSectorPattern raw_pattern ;;
  raw_turnover <- get raw (js "turnover") ;;
  turnover <- percentField raw_turnover ;;
  raw_chg <- get raw (js "chg") ;;
  chg <- percentField raw_chg ;;
  raw_amount <- get raw (js "amount") ;;
  amount_str <- ToString (or_empty raw_amount) ;;
  let amount := or_null (parseFloat (remove_all (in_class (js "亿万,")) amount_str)) in
  let partial := {| in_sector_pattern := sectorPattern; in_turnover := turnover |} in
  let scored := calculateScore partial in
  raw_debt <- get raw (js "debt_ratio") ;;
  debt_ratio <- percentField raw_debt ;;
  Ok {| date := date;
        code := code;
        name := name;
        sector := sector;
        sector_pattern := sectorPattern;
        turnover := turnover;
        chg := chg;
        amount := amount;
        debt_ratio := debt_ratio;
        score := cs_score scored;
        reason := cs_reason scored |}.

(** ** The positional heuristics of a headerless row *)

(** [/^\d{6}$/.test(p.trim())] *)
Definition six_digits (p : jsstring) : bool :=
  let t := trim p in (length t =? 6)%nat && forallb is_digit t.

Definition extractCode (parts : list jsstring) : option jsstring :=
  find six_digits parts.

Definition extractName (parts : list jsstring) : option jsstring :=
  find (fun p =>
          match trim p with
          | c :: _ => is_cjk_or_letter c
          | [] => false
          end
          && negb (existsb (in_class (js "%％")) p)
          && (length p <=? 8)%nat) parts.

Definition extractSector (parts : list jsstring) : option jsstring :=
  find (fun p =>
          includes p (js "、")
          || includes p (js ",")
          || ((4 <? length p)%nat && existsb is_cjk p
              && negb (existsb (in_class (js "%％")) p))) parts.

(** [extractNumber(parts, /%/)]: the hint is the one the caller passes. *)
Fixpoint extractNumber (parts : list jsstring) : option number :=
  match parts with
  | [] => None
  | p :: rest =>
    if negb (includes p (js "%")) then extractNumber rest
    else
      let n := parseFloat (remove_all (in_class (js "%％")) p) in
      if negb (isNaN n) then Some n else extractNumber rest
  end.

(** [/[+-]?\d+\.\d+%?$/.test(t)]: the pattern is not anchored on the left,
    so it asks that [t] end in digits, a dot, digits and at most one
    percent sign. *)
Definition ends_in_decimal (t : jsstring) : bool :=
  let r := rev t in
  let r1 := match r with
            | c :: r' => if (c =? PERCENT)%N then r' else r
            | [] => r
            end in
  nonempty (take_while is_digit r1)
  && match drop_while is_digit r1 with
     | dot :: d :: _ => (dot =? 46)%N && is_digit d
     | _ => false
     end.

Fixpoint extractChg (parts : list jsstring) : option number :=
  match parts with
  | [] => None
  | p :: rest =>
    if ends_in_decimal (trim p)
    then Some (parseFloat (remove_all (in_class (js "%％")) p))
    else extractChg rest
  end.

Definition string_or_undefined (o : option jsstring) : value :=
  match o with Some s => VString s | None => VUndefined end.

Definition number_or_undefined (o : option number) : value :=
  match o with Some x => VNumber x | None => VUndefined end.

(** ** The table path *)

(** [headers.forEach((h, i) => { if (i < parts.length) { ... } })] *)
Definition headerRaw (headers parts : list jsstring)
  : list (jsstring * value) :=
  fold_left
    (fun raw hp =>
       match mapHeaderToKey (fst hp) with
       | Some key => assign raw key (VString (snd hp))
       | None => raw
       end)
    (combine headers parts) [].

Definition heuristicRaw (parts : list jsstring) : list (jsstring * value) :=
  let raw := assign [] (js "code") (string_or_undefined (extractCode parts)) in
  let raw := assign raw (js "name") (string_or_undefined (extractName parts)) in
  let raw := assign raw (js "sector") (string_or_undefined (extractSector parts)) in
  let raw := assign raw (js "turnover") (number_or_undefined (extractNumber parts)) in
  assign raw (js "chg") (number_or_undefined (extractChg parts)).

(** [if (record.code || record.name) records.push(record)] *)
Definition keep (record : SignalRecord) : bool :=
  nonempty (code record) || nonempty (name record).

(** One turn of the loop over [dataLines]: the record to push, if any. *)
Definition tableRow (headers : list jsstring) (separator : unit16)
           (defaultDate : option jsstring) (line : jsstring)
  : result (option SignalRecord) :=
  let trimmedLine := trim line in
  if negb (nonempty trimmedLine) then Ok None
  else if includes trimmedLine (js ":")
          && negb (includes trimmedLine (js ","))
          && negb (includes trimmedLine (js "\t"))
  then Ok None
  else
    let parts := map trim (split_on (is_unit separator) trimmedLine) in
    if (length parts <? 2)%nat then Ok None
    else
      let raw :=
        if (0 <? length headers)%nat
        then headerRaw headers parts
        else heuristicRaw parts in
      record <- normalizeRecord (VObject raw) defaultDate ;;
      if keep record then Ok (Some record) else Ok None.

(** A loop that pushes onto [records]. *)
Fixpoint pushEach {A} (row : A -> result (option SignalRecord))
         (items : list A) (records : list SignalRecord)
  : result (list SignalRecord) :=
  match items with
  | [] => Ok records
  | item :: rest =>
    pushed <- row item ;;
    pushEach row rest
             (match pushed with
              | Some record => records ++ [record]
              | None => records
              end)
  end.

(** ** The block path *)

(** The number of units that [\s*\n] takes after a line feed, where the
    units that follow are [r]: up to the last line feed of the white space
    that [r] starts with, if there is one. *)
Fixpoint last_line_feed (run : jsstring) (i : nat) (best : option nat)
  : option nat :=
  match run with
  | [] => best
  | c :: r => last_line_feed r (S i) (if (c =? LF)%N then Some (S i) else best)
  end.

Definition blank_gap (r : jsstring) : option nat :=
  last_line_feed (take_while is_ws r) 0 None.

(** [s.split(/\n\s*\n/)]: [skip] counts the units of a separator still to
    pass, [cur] holds the piece being read, last unit first. *)
Fixpoint split_blank (s : jsstring) (skip : nat) (cur : jsstring)
  : list jsstring :=
  match s with
  | [] => [rev cur]
  | c :: r =>
    match skip with
    | S k => split_blank r k cur
    | O =>
      if (c =? LF)%N then
        match blank_gap r with
        | Some n => rev cur :: split_blank r n []
        | None => split_blank r 0 (c :: cur)
        end
      else split_blank r 0 (c :: cur)
    end
  end.

(** What [\s*(.+)$] captures in [r], the text after the colon. *)
Definition label_value (r : jsstring) : option jsstring :=
  match drop_while is_ws r with
  | c :: v =>
    if existsb is_line_terminator (c :: v) then None else Some (c :: v)
  | [] =>
    match rev r with
    | last :: _ => if is_line_terminator last then None else Some [last]
    | [] => None
    end
  end.

(** [bline.match(/^(.+?)[：:]\s*(.+)$/)]: the two groups; [pre] holds the
    units passed, last first. The first group is the shortest that
    works. *)
Fixpoint match_label (pre : jsstring) (s : jsstring)
  : option (jsstring * jsstring) :=
  match s with
  | [] => None
  | c :: r =>
    match (if in_class (js "：:") c && nonempty pre
           then label_value r else None) with
    | Some v => Some (rev pre, v)
    | None => if is_line_terminator c then None else match_label (c :: pre) r
    end
  end.

Definition blockRaw (block : jsstring) : list (jsstring * value) :=
  let blockLines :=
    filter (fun l => nonempty (trim l)) (split_on (is_unit LF) block) in
  fold_left
    (fun raw bline =>
       match match_label [] bline with
       | Some (label, v) =>
         match mapHeaderToKey (trim label) with
         | Some key => assign raw key (VString (trim v))
         | None => raw
         end
       | None => raw
       end)
    blockLines [].

(** One turn of the loop over [blocks]. *)
Definition blockRow (defaultDate : option jsstring) (block : jsstring)
  : result (option SignalRecord) :=
  let raw := blockRaw block in
  if (0 <? length raw)%nat then
    record <- normalizeRecord (VObject raw) defaultDate ;;
    if keep record then Ok (Some record) else Ok None
  else Ok None.

(** ** parseSignalText *)

(** [arr.map(f)]: a method of arrays. *)
Definition array_map {B} (f : value -> result B) (arr : value)
  : result (list B) :=
  match arr with
  | VArray items => mapM f items
  | _ => Throw TypeError
  end.

(** The body of the [try] block. *)
Definition jsonPath (trimmed : jsstring) (defaultDate : option jsstring)
  : result (list SignalRecord) :=
  arr <- JSON_parse trimmed ;;
  array_map (fun item => normalizeRecord item defaultDate) arr.

(** [firstLine.includes("代码") || ...] *)
Definition looksLikeHeader (firstLine : jsstring) : bool :=
  includes firstLine (js "代码")
  || includes firstLine (js "code")
  || includes firstLine (js "股票")
  || includes firstLine (js "名称").

Definition detectSeparator (firstLine : jsstring) : unit16 :=
  if includes firstLine (js "\t") then TAB
  else if includes firstLine (js "|") then PIPE
  else COMMA.

(** The records of the loop over [dataLines], which the block path sees. *)
Definition tablePath (lines : list jsstring) (defaultDate : option jsstring)
  : result (list SignalRecord) :=
  match lines with
  | [] => Ok []
  | line0 :: rest =>
    let firstLine := toLowerCase line0 in
    let isHeader := looksLikeHeader firstLine in
    let dataLines := if isHeader then rest else lines in
    let separator := detectSeparator firstLine in
    let headers :=
      if isHeader
      then map (fun h => toLowerCase (trim h))
               (split_on (is_unit separator) line0)
      else [] in
    pushEach (tableRow headers separator defaultDate) dataLines []
  end.

(** What follows the [try] block. *)
Definition textPath (trimmed : jsstring) (defaultDate : option jsstring)
  : result (list SignalRecord) :=
  let lines :=
    filter (fun l => nonempty (trim l)) (split_on (is_unit LF) trimmed) in
  if (length lines =? 0)%nat then Ok []
  else
    records <- tablePath lines defaultDate ;;
    if (length records =? 0)%nat
    then pushEach (blockRow defaultDate) (split_blank trimmed 0 []) records
    else Ok records.

Definition parseSignalText (text : jsstring) (defaultDate : option jsstring)
  : result (list SignalRecord) :=
  let trimmed := trim text in
  if startsWith trimmed (js "[")
  then try_catch (jsonPath trimmed defaultDate) (textPath trimmed defaultDate)
  else textPath trimmed defaultDate.

End Parser.

(* ================================================================== *)
(** * components/signal-input.tsx: the manual-entry form *)
(* ================================================================== *)

(** The fields of a [RowData] that rowToRecord reads. *)
Record RowData := {
  row_code : jsstring;
  row_name : jsstring;
  row_sector : jsstring;
  row_sector_pattern : jsstring;
  row_turnover : jsstring;
  row_chg : jsstring;
  row_amount : jsstring;
  row_debt_ratio : jsstring
}.

(** [s ? parseFloat(s) : null], and then
    [x != null && !isNaN(x) ? x : null] *)
Definition formNumber (s : jsstring) : option number :=
  match (if nonempty s then Some (parseFloat s) else None) with
  | Some x => if negb (isNaN x) then Some x else None
  | None => None
  end.

(** rowToRecord, the sibling of normalizeRecord that builds a record from a
    row of the form ([console.error] left out). *)
Definition rowToRecord (row : RowData) (date : jsstring) : option SignalRecord :=
  if negb (nonempty (row_code row)) && negb (nonempty (row_name row)) then None
  else
    let turnover := formNumber (row_turnover row) in
    let chg := formNumber (row_chg row) in
    let amount := formNumber (row_amount row) in
    let debt_ratio := formNumber (row_debt_ratio row) in
    let sectors :=
      filter nonempty
             (map trim (split_on (in_class (js ",，、")) (row_sector row))) in
    let sectorPattern :=
      if str_eqb (row_sector_pattern row) (js "水下拉水上") then Some PatternA
      else if str_eqb (row_sector_pattern row) (js "波动三角收窄")
      then Some PatternB
      else None in
    let code :=
      padStart0 6 (remove_all (fun c => negb (is_digit c)) (row_code row)) in
    let name := trim (row_name row) in
    if negb (nonempty code) || negb (nonempty name) then None
    else
      Some {| date := VString date;
              code := code;
              name := name;
              sector := map VString
                            (if (0 <? length sectors)%nat then sectors
                             else [js "未分类"]);
              sector_pattern := sectorPattern;
              turnover := turnover;
              chg := chg;
              amount := amount;
              debt_ratio := debt_ratio;
              score := 0%Z;
              reason := [] |}.

(* ================================================================== *)
(** * The tushare client: codeToTsCode *)
(* ================================================================== *)

(** The security code in the form the market-data provider asks for: the
    six digits, a dot and the exchange. *)
Definition codeToTsCode (code : jsstring) : jsstring :=
  let cleanCode := padStart0 6 (remove_all (fun c => negb (is_digit c)) code) in
  if negb (length cleanCode =? 6)%nat then []
  else if startsWith cleanCode (js "60") then cleanCode ++ js ".SH"
  else if startsWith cleanCode (js "00") || startsWith cleanCode (js "30")
  then cleanCode ++ js ".SZ"
  else if startsWith cleanCode (js "68") then cleanCode ++ js ".SH"
  else if startsWith cleanCode (js "43") || startsWith cleanCode (js "83")
          || startsWith cleanCode (js "87")
  then cleanCode ++ js ".BJ"
  else cleanCode ++ js ".SZ".

(* ================================================================== *)
(** * The store: getDailySummary and exportToCSV *)
(* ================================================================== *)

Record DailySummary := {
  ds_date : value;
  totalCount : nat;
  highPriority : nat;
  alternative : nat;
  eliminated : nat;
  ds_records : list SignalRecord
}.

(** Where [r] goes in a list sorted by falling score: before the first
    record whose score is not above its own. *)
Fixpoint insertByScore (r : SignalRecord) (l : list SignalRecord)
  : list SignalRecord :=
  match l with
  | [] => [r]
  | x :: rest =>
    if (score x <=? score r)%Z then r :: x :: rest
    else x :: insertByScore r rest
  end.

(** [records.sort((a, b) => b.score - a.score)]. Array.prototype.sort is
    stable, so the result is the one list that holds the records by
    falling score and records of one score in their order of arrival;
    insertion from the right builds it. The source sorts the array it was
    given in place and returns that array. *)
Definition sortByScore (records : list SignalRecord) : list SignalRecord :=
  fold_right insertByScore [] records.

(** [a.join(sep)] on an array of strings. *)
Fixpoint join (sep : jsstring) (cells : list jsstring) : jsstring :=
  match cells with
  | [] => []
  | [c] => c
  | c :: rest => c ++ sep ++ join sep rest
  end.

(** The heading of the CSV file. *)
Definition csvHeaders : list jsstring :=
  [ js "日期"; js "代码"; js "名称"; js "板块"; js "板块分时"; js "换手率%";
    js "涨跌幅%"; js "市值"; js "资产负债率%"; js "评分"; js "评分原因" ].

Definition pattern_label (p : pattern) : jsstring :=
  match p with
  | PatternA => js "水下拉水上"
  | PatternB => js "波动三角收窄"
  end.

Section Store.
Context {host : Host}.

Definition getDailySummary (records : list SignalRecord) : DailySummary :=
  let date :=
    match records with
    | r :: _ => if truthy (date r) then date r else VString currentDate
    | [] => VString currentDate
    end in
  {| ds_date := date;
     totalCount := length records;
     highPriority := length (filter (fun r => (75 <=? score r)%Z) records);
     alternative :=
       length (filter (fun r => (50 <=? score r)%Z && (score r <? 75)%Z) records);
     eliminated := length (filter (fun r => (score r <? 50)%Z) records);
     ds_records := sortByScore records |}.

(** [a.join(sep)] on an array of values: [null] and [undefined] print as
    nothing, any other element as [String] prints it. *)
Definition joinValues (sep : jsstring) (items : list value) : result jsstring :=
  cells <- mapM (fun x => match x with
                          | VUndefined | VNull => Ok []
                          | _ => ToString x
                          end) items ;;
  Ok (join sep cells).

(** [x ?? empty] on a number field. *)
Definition number_or_empty (o : option number) : value :=
  match o with Some x => VNumber x | None => VString [] end.

(** The array that exportToCSV makes of one record. *)
Definition csvCells (r : SignalRecord) : result (list value) :=
  sectors <- joinValues (js "、") (sector r) ;;
  Ok [ date r;
       VString (code r);
       VString (name r);
       VString sectors;
       VString (match sector_pattern r with
                | Some p => pattern_label p
                | None => []
                end);
       number_or_empty (turnover r);
       number_or_empty (chg r);
       number_or_empty (amount r);
       number_or_empty (debt_ratio r);
       VNumber (of_Z (score r));
       VString (join (js "; ") (reason r)) ].

Definition exportToCSV (records : list SignalRecord) : result jsstring :=
  rows <- mapM csvCells records ;;
  lines <- mapM (joinValues (js ",")) rows ;;
  Ok (join (js "\n") (join (js ",") csvHeaders :: lines)).

(* ================================================================== *)
(** * components/operation-suggestions.tsx: generateSuggestions *)
(* ================================================================== *)

(** The text of a count in a template literal. *)
Definition count_text (n : nat) : jsstring :=
  numberToString (of_Z (Z.of_nat n)).

Definition generateSuggestions (records : list SignalRecord) : list jsstring :=
  let suggestions := [] in
  let highTurnover :=
    filter (fun r => match turnover r with
                     | Some x => num_ge x (of_Z 8)
                     | None => false
                     end) records in
  let posPatternRecords :=
    filter (fun r => match sector_pattern r with
                     | Some PatternA => true
                     | _ => false
                     end) records in
  let suggestions :=
    if (0 <? length posPatternRecords)%nat then
      suggestions ++
      [js "共 " ++ count_text (length posPatternRecords)
         ++ js " 只出现「水下拉水上」板块分时形态，优先在次日开盘回踩VWAP附近低吸，不追涨。"]
    else suggestions in
  let suggestions :=
    if (0 <? length highTurnover)%nat then
      suggestions ++
      [js "换手率 > 8% 的品种共 " ++ count_text (length highTurnover)
         ++ js " 只，需警惕筹码松动，关注量价配合质量。"]
    else suggestions in
  let suggestions :=
    suggestions ++
    [js "板块有多只股票同时出信号时，优先选龙头（换手合理+分时形态正面），避免分散。"] in
  let suggestions :=
    suggestions ++
    [js "分时出现「急拉再狠砸」或「跌破VWAP回不去」的品种坚决回避。"] in
  let suggestions :=
    suggestions ++
    [js "任何操作计划需设定止损位（建议-3%~-5%），严格执行纪律。"] in
  firstn 8 suggestions.

End Store.

(** The keys of a raw row that normalizeRecord reads. *)
Definition read_keys : list jsstring :=
  [ js "date"; js "code"; js "name"; js "sector"; js "sector_pattern";
    js "turnover"; js "chg"; js "amount"; js "debt_ratio" ].

(** The text of a line of the CSV heading. *)
Definition csvHeaderLine : jsstring := join (js ",") csvHeaders.

(** The lines that the text strategies of parseSignalText go through:
    [trimmed.split(LF).filter((l) => l.trim())]. *)
Definition textLines (trimmed : jsstring) : list jsstring :=
  filter (fun l => nonempty (trim l)) (split_on (is_unit LF) trimmed).

(** No white space at the start of the string. *)
Definition starts_clean (s : jsstring) : bool :=
  match s with
  | c :: _ => negb (is_ws c)
  | [] => true
  end.

(* ================================================================== *)
(** * Vocabulary of the statements *)
(* ================================================================== *)

(** Double quotes cannot stand in a literal of this file: [jq] reads a
    literal and turns each single quote into a double quote, so that JSON
    texts can be written down. *)
Definition jq (s : string) : jsstring :=
  map (fun c => if (c =? 39)%N then 34%N else c) (js s).

(** The number 6.5, which is 13 / 2. *)
Definition six_and_a_half : number := binary_normalize prec emax 13 (-1) false.

(** Neither an array nor an object. *)
Definition scalar (v : value) : bool :=
  match v with
  | VArray _ | VObject _ => false
  | _ => true
  end.

(** What the text path stores in a raw row: strings, [undefined], and
    numbers under keys other than [name]. *)
Definition flat_entry (kv : jsstring * value) : bool :=
  match snd kv with
  | VUndefined | VString _ => true
  | VNumber _ => negb (str_eqb (fst kv) (js "name"))
  | _ => false
  end.

(** The value a raw row holds under a key. *)
Definition field (raw : list (jsstring * value)) (k : jsstring) : value :=
  match lookup raw k with
  | Some v => v
  | None => VUndefined
  end.

Section Vocabulary.
Context {host : Host}.

(** The score and the reasons of a record say how calculateScore judges
    its own sector pattern and turnover. *)
Definition recomputed (r : SignalRecord) : Prop :=
  let judged := calculateScore {| in_sector_pattern := sector_pattern r;
                                  in_turnover := turnover r |} in
  score r = cs_score judged /\ reason r = cs_reason judged.

End Vocabulary.

(** The host [h] with its [toLowerCase] spelled out where the class says
    what it is: the parser cannot tell the two apart, and text of Basic
    Latin and CJK units runs on the second without a call to [h]. *)
Definition settled (h : Host) : Host := {|
  toLowerCase := fun s =>
    if forallb plain_unit s then map lower_unit s else @toLowerCase h s;
  numberToString := @numberToString h;
  currentDate := @currentDate h;
  toLowerCase_plain :=
    fun (s : jsstring) (Hs : forallb plain_unit s = true) =>
      @eq_ind_r bool true
        (fun b : bool =>
           (if b then map lower_unit s else @toLowerCase h s)
           = map lower_unit s) eq_refl (forallb plain_unit s) Hs
|}.

Section MoreVocabulary.
Context {host : Host}.

(** What the turnover rule adds, over the sector rule. *)
Definition turnover_bonus (t : option number) : Z :=
  match t with
  | Some x =>
    if num_ge x (of_Z 8) then 30%Z
    else if num_ge x (of_Z 5) then 20%Z
    else if num_ge x (of_Z 3) then 10%Z
    else 0%Z
  | None => 0%Z
  end.

(** What the turnover rule pushes. *)
Definition turnover_reasons (t : option number) : list jsstring :=
  match t with
  | Some x =>
    if num_ge x (of_Z 8)
    then [js "换手率" ++ numberToString x ++ js "% >= 8% +30"]
    else if num_ge x (of_Z 5)
    then [js "换手率" ++ numberToString x ++ js "% >= 5% +20"]
    else if num_ge x (of_Z 3)
    then [js "换手率" ++ numberToString x ++ js "% >= 3% +10"]
    else []
  | None => [js "换手率信息缺失"]
  end.

Definition sector_reason (sp : option pattern) : jsstring :=
  match sp with
  | Some PatternA => js "板块分时：水下拉水上 +30"
  | Some PatternB => js "板块分时：波动三角收窄 +20"
  | None => js "板块分时信息缺失"
  end.

End MoreVocabulary.

(** A sector label: a string that is not empty, is trimmed and holds none
    of the separators of a sector list. *)
Definition sector_label (v : value) : Prop :=
  exists s, v = VString s /\ s <> [] /\ trim s = s
            /\ existsb (in_class (js ",，、")) s = false.

(** By falling score. *)
Definition falling (a b : SignalRecord) : Prop := (score b <= score a)%Z.

(** Texts and records that the statements below are run on. *)
Definition sample_table : jsstring :=
  js "代码,名称,板块,换手率\n600519, X ,白酒、消费,6.5%".


Definition sample_line : jsstring := js "600519, 贵州茅台 ,白酒".

Definition sample_form_row : RowData :=
  {| row_code := js "519";
     row_name := js " X ";
     row_sector := [];
     row_sector_pattern := js "水下拉水上";
     row_turnover := js "0";
     row_chg := js "abc";
     row_amount := [];
     row_debt_ratio := js "45.5" |}.

Definition sample_export : list SignalRecord :=
  [ {| date := VString (js "2025-01-01");
       code := js "600519";
       name := js "X";
       sector := [VString (js "白酒")];
       sector_pattern := Some PatternA;
       turnover := Some (of_Z 8);
       chg := None;
       amount := Some (of_Z 21000);
       debt_ratio := None;
       score := 60%Z;
       reason := [js "板块分时：水下拉水上 +30"] |} ].

(* ================================================================== *)
(** * The scoring engine: tiers and range *)
(* ================================================================== *)

Section ScoringFacts.
Context {host : Host}.

Local Open Scope Z_scope.

Lemma award_fst n msg st : fst (award n msg st) = fst st + n.
Proof. reflexivity. Qed.

Lemma note_fst msg st : fst (note msg st) = fst st.
Proof. reflexivity. Qed.

(** The sector rule adds 0, 20 or 30. *)
Lemma sector_rule_fst sp st :
  fst (sector_rule sp st) = fst st + match sp with
                                     | Some PatternA => 30
                                     | Some PatternB => 20
                                     | None => 0
                                     end.
Proof.
  destruct sp as [[|]|]; unfold sector_rule.
  - apply award_fst.
  - apply award_fst.
  - rewrite note_fst. lia.
Qed.

(** The score is the total of the rules, clamped. *)
Lemma calculateScore_score r :
  cs_score (calculateScore r) = clamp (fst (rule_total r)).
Proof.
  unfold calculateScore. destruct (rule_total r) as [total reasons].
  reflexivity.
Qed.

(** What the turnover rule adds is decided by the first threshold met. *)
Lemma turnover_rule_fst x st :
  fst (turnover_rule (Some x) st) =
  fst st + (if num_ge x (of_Z 8) then 30
            else if num_ge x (of_Z 5) then 20
            else if num_ge x (of_Z 3) then 10
            else 0).
Proof.
  unfold turnover_rule.
  destruct (num_ge x (of_Z 8)); [apply award_fst|].
  destruct (num_ge x (of_Z 5)); [apply award_fst|].
  destruct (num_ge x (of_Z 3)); [apply award_fst|].
  lia.
Qed.

Lemma turnover_rule_none_fst st : fst (turnover_rule None st) = fst st.
Proof. reflexivity. Qed.

(** Each rule pushes at most one reason. *)
Lemma sector_rule_reasons sp st :
  length (snd (sector_rule sp st)) = S (length (snd st)).
Proof.
  destruct sp as [[|]|]; unfold sector_rule, award, note; cbn [snd];
    rewrite length_app; cbn; lia.
Qed.

Lemma turnover_rule_reasons t st :
  (length (snd (turnover_rule t st)) <= S (length (snd st)))%nat.
Proof.
  destruct t as [x|]; unfold turnover_rule.
  - destruct (num_ge x (of_Z 8)); [|destruct (num_ge x (of_Z 5));
      [|destruct (num_ge x (of_Z 3))]];
      unfold award; cbn [snd]; rewrite ?length_app; cbn; lia.
  - unfold note; cbn [snd]. rewrite length_app. cbn. lia.
Qed.

Lemma rule_total_range r : 0 <= fst (rule_total r) <= 60.
Proof.
  destruct r as [sp t]. unfold rule_total. cbn [in_turnover in_sector_pattern].
  destruct t as [x|].
  - rewrite turnover_rule_fst, sector_rule_fst. cbn [fst].
    destruct sp as [[|]|], (num_ge x (of_Z 8)), (num_ge x (of_Z 5)),
      (num_ge x (of_Z 3)); lia.
  - rewrite turnover_rule_none_fst, sector_rule_fst. cbn [fst].
    destruct sp as [[|]|]; lia.
Qed.

(** The thresholds are ordered: a number that is 8 or more is 5 or more,
    and one that is 5 or more is 3 or more. *)
Lemma num_ge_8_5 x : num_ge x (of_Z 8) = true -> num_ge x (of_Z 5) = true.
Proof.
  unfold num_ge.
  replace (of_Z 8) with (S754_finite false 4503599627370496 (-49))
    by reflexivity.
  replace (of_Z 5) with (S754_finite false 5629499534213120 (-50))
    by reflexivity.
  destruct x as [s|s| |s m e]; try (destruct s); try discriminate; auto.
  unfold SFleb, SFcompare.
  destruct (Z.compare_spec (-49) e) as [E|E|E];
    destruct (Z.compare_spec (-50) e) as [F|F|F];
    try lia; try discriminate; auto.
Qed.

Lemma num_ge_5_3 x : num_ge x (of_Z 5) = true -> num_ge x (of_Z 3) = true.
Proof.
  unfold num_ge.
  replace (of_Z 5) with (S754_finite false 5629499534213120 (-50))
    by reflexivity.
  replace (of_Z 3) with (S754_finite false 6755399441055744 (-51))
    by reflexivity.
  destruct x as [s|s| |s m e]; try (destruct s); try discriminate; auto.
  unfold SFleb, SFcompare.
  destruct (Z.compare_spec (-50) e) as [E|E|E];
    destruct (Z.compare_spec (-51) e) as [F|F|F];
    try lia; try discriminate; auto.
Qed.

(** C6. The turnover thresholds are tiers, of which one at most pays: next
    to the score of the same record without turnover, a turnover of 8 or
    more adds 30 and no more, one from 5 up to 8 adds 20, one from 3 up to 5
    adds 10, any other adds nothing, and the turnover rule pushes one reason
    at most; with no sector pattern and a turnover of 8 the score is 30. *)
Theorem turnover_tiers_exclusive (sp : option pattern) (x : number) :
  let with_turnover :=
    calculateScore {| in_sector_pattern := sp; in_turnover := Some x |} in
  let without :=
    calculateScore {| in_sector_pattern := sp; in_turnover := None |} in
  let bonus := cs_score with_turnover - cs_score without in
  (num_ge x (of_Z 8) = true -> bonus = 30)
  /\ (num_ge x (of_Z 5) = true -> num_ge x (of_Z 8) = false -> bonus = 20)
  /\ (num_ge x (of_Z 3) = true -> num_ge x (of_Z 5) = false -> bonus = 10)
  /\ (num_ge x (of_Z 3) = false -> bonus = 0)
  /\ (length (cs_reason with_turnover) <= 2)%nat
  /\ cs_score (calculateScore {| in_sector_pattern := None;
                                 in_turnover := Some (of_Z 8) |}) = 30.
Proof.
  cbv zeta.
  rewrite !calculateScore_score. unfold rule_total.
  cbn [in_turnover in_sector_pattern].
  rewrite turnover_rule_fst, turnover_rule_none_fst, !sector_rule_fst.
  cbn [fst].
  pose proof (num_ge_8_5 x) as H85. pose proof (num_ge_5_3 x) as H53.
  split; [|split; [|split; [|split; [|split]]]].
  - intros ->. destruct sp as [[|]|]; reflexivity.
  - intros -> ->. destruct sp as [[|]|]; reflexivity.
  - intros H3 H5. rewrite H3, H5.
    destruct (num_ge x (of_Z 8)); [specialize (H85 eq_refl); congruence|].
    destruct sp as [[|]|]; reflexivity.
  - intros H3. rewrite H3.
    destruct (num_ge x (of_Z 5)); [specialize (H53 eq_refl); congruence|].
    destruct (num_ge x (of_Z 8)); [specialize (H85 eq_refl); congruence|].
    destruct sp as [[|]|]; reflexivity.
  - unfold calculateScore, rule_total. cbn [in_turnover in_sector_pattern].
    pose proof (turnover_rule_reasons (Some x) (sector_rule sp (0, []))) as Ht.
    pose proof (sector_rule_reasons sp (0, [])) as Hs.
    destruct (turnover_rule (Some x) (sector_rule sp (0, []))) as [total rs].
    cbn [cs_reason snd] in *.
    destruct (length rs =? 0)%nat eqn:E.
    + apply Nat.eqb_eq in E. rewrite length_app, E. cbn. lia.
    + rewrite Hs in Ht. cbn [length] in Ht. lia.
  - reflexivity.
Qed.

(** C7. Whatever the sector pattern and the turnover, the total of the
    rules before the clamp lies between 0 and 60, the clamp to 0 .. 100
    leaves it as it is, and the score returned lies between 0 and 100. *)
Theorem score_total_needs_no_clamp (r : ScoreInput) :
  0 <= fst (rule_total r) <= 60
  /\ clamp (fst (rule_total r)) = fst (rule_total r)
  /\ cs_score (calculateScore r) = fst (rule_total r)
  /\ 0 <= cs_score (calculateScore r) <= 100.
Proof.
  pose proof (rule_total_range r) as H.
  assert (Hc : clamp (fst (rule_total r)) = fst (rule_total r))
    by (unfold clamp; lia).
  rewrite calculateScore_score, Hc. repeat split; lia.
Qed.

End ScoringFacts.

(* ================================================================== *)
(** * Record normalization *)
(* ================================================================== *)

Section ParserFacts.
Context {host : Host}.

Lemma bind_Ok {A B} (m : result A) (k : A -> result B) (b : B) :
  (x <- m ;; k x) = Ok b -> exists a, m = Ok a /\ k a = Ok b.
Proof. destruct m as [a|e]; cbn; [eauto | discriminate]. Qed.

(** [bind_inv H] opens the first bind of [H : ... = Ok _]. *)
Ltac bind_inv H :=
  let a := fresh "v" in
  let E := fresh "E" in
  apply bind_Ok in H; destruct H as (a & E & H); cbv beta zeta in H.

Lemma normalizeRecord_recomputed raw dd r :
  normalizeRecord raw dd = Ok r -> recomputed r.
Proof.
  unfold normalizeRecord. intros H.
  cbv zeta in H. repeat bind_inv H.
  injection H as <-. split; reflexivity.
Qed.

(** A loop that pushes keeps what holds of every record pushed. *)
Lemma pushEach_Forall {A} (P : SignalRecord -> Prop)
      (row : A -> result (option SignalRecord)) items :
  (forall item r, row item = Ok (Some r) -> P r) ->
  forall records rs,
    Forall P records -> pushEach row items records = Ok rs -> Forall P rs.
Proof.
  intros Hrow. induction items as [|item rest IH]; cbn; intros records rs Hacc H.
  - injection H as <-. exact Hacc.
  - bind_inv H. destruct v as [r|].
    + apply (IH _ _ (proj2 (Forall_app P records [r])
                           (conj Hacc (Forall_cons r (Hrow _ _ E) (Forall_nil P)))) H).
    + apply (IH _ _ Hacc H).
Qed.

Lemma mapM_Forall {A B} (P : B -> Prop) (f : A -> result B) l :
  (forall a b, f a = Ok b -> P b) ->
  forall bs, mapM f l = Ok bs -> Forall P bs.
Proof.
  intros Hf. induction l as [|a l IH]; cbn; intros bs H.
  - injection H as <-. constructor.
  - do 2 bind_inv H. injection H as <-. constructor; eauto.
Qed.

Lemma tableRow_Some_inv headers separator dd line r :
  tableRow headers separator dd line = Ok (Some r) ->
  exists raw, normalizeRecord (VObject raw) dd = Ok r /\ keep r = true.
Proof.
  unfold tableRow. intros H.
  destruct (negb (nonempty (trim line))); [discriminate|].
  destruct (_ && _ && _); [discriminate|].
  destruct (_ <? 2)%nat; [discriminate|].
  bind_inv H. destruct (keep v) eqn:K; [|discriminate].
  injection H as <-. eauto.
Qed.

Lemma blockRow_Some_inv dd block r :
  blockRow dd block = Ok (Some r) ->
  exists raw, normalizeRecord (VObject raw) dd = Ok r /\ keep r = true.
Proof.
  unfold blockRow. intros H.
  destruct (0 <? _)%nat; [|discriminate].
  bind_inv H. destruct (keep v) eqn:K; [|discriminate].
  injection H as <-. eauto.
Qed.

(** What holds of every normalized record that is kept holds of every
    record of the text path. *)
Lemma textPath_Forall (P : SignalRecord -> Prop) trimmed dd rs :
  (forall raw r, normalizeRecord (VObject raw) dd = Ok r -> keep r = true -> P r) ->
  textPath trimmed dd = Ok rs -> Forall P rs.
Proof.
  intros HP. unfold textPath.
  destruct (length _ =? 0)%nat.
  - intros H. injection H as <-. constructor.
  - intros H. bind_inv H.
    assert (Hv : Forall P v).
    { unfold tablePath in E. destruct (filter _ _) as [|line0 rest].
      - injection E as <-. constructor.
      - eapply pushEach_Forall; [|constructor|exact E].
        intros item r Hr. apply tableRow_Some_inv in Hr as (raw & Hn & Hk).
        eauto. }
    destruct (length v =? 0)%nat.
    + eapply pushEach_Forall; [|exact Hv|exact H].
      intros item r Hr. apply blockRow_Some_inv in Hr as (raw & Hn & Hk).
      eauto.
    + injection H as <-. exact Hv.
Qed.

(** What holds of every normalized record holds of every record that
    parseSignalText returns. *)
Lemma parseSignalText_Forall (P : SignalRecord -> Prop) text dd rs :
  (forall raw r, normalizeRecord raw dd = Ok r -> P r) ->
  parseSignalText text dd = Ok rs -> Forall P rs.
Proof.
  intros HP. unfold parseSignalText.
  assert (Htext : textPath (trim text) dd = Ok rs -> Forall P rs).
  { apply textPath_Forall. eauto. }
  destruct (startsWith _ _); [|exact Htext].
  unfold try_catch. destruct (jsonPath _ _) as [js_rs|e] eqn:J; [|exact Htext].
  intros H. injection H as <-.
  unfold jsonPath in J. bind_inv J.
  destruct v; try discriminate. cbn in J.
  eapply mapM_Forall; [|exact J]. eauto.
Qed.

(** C5. The score and the reasons of every record that parseSignalText
    returns are those calculateScore gives for the sector pattern and the
    turnover of that record; no value of the input reaches them otherwise. *)
Theorem score_is_recomputed text dd rs r :
  parseSignalText text dd = Ok rs ->
  In r rs ->
  score r = cs_score (calculateScore
                        {| in_sector_pattern := sector_pattern r;
                           in_turnover := turnover r |})
  /\ reason r = cs_reason (calculateScore
                             {| in_sector_pattern := sector_pattern r;
                                in_turnover := turnover r |}).
Proof.
  intros H Hin.
  assert (Hall : Forall recomputed rs).
  { eapply parseSignalText_Forall; [|exact H].
    intros raw r0. apply normalizeRecord_recomputed. }
  rewrite Forall_forall in Hall. exact (Hall r Hin).
Qed.

Lemma str_eqb_eq a b : str_eqb a b = true <-> a = b.
Proof.
  unfold str_eqb. destruct (list_eq_dec N.eq_dec a b); split;
    intros; congruence.
Qed.

Lemma lookup_assign_other raw k v k' :
  str_eqb k k' = false -> lookup (assign raw k v) k' = lookup raw k'.
Proof.
  intros Hk. unfold lookup. induction raw as [|[k0 v0] raw IH]; cbn.
  - rewrite Hk. reflexivity.
  - destruct (str_eqb k0 k) eqn:E; cbn [find fst].
    + apply str_eqb_eq in E as ->. rewrite Hk. reflexivity.
    + destruct (str_eqb k0 k'); [reflexivity | exact IH].
Qed.

(** A [score] and a [reason] in the raw row change nothing in the record. *)
Lemma normalizeRecord_ignores_score raw v w dd :
  normalizeRecord
    (VObject (assign (assign raw (js "score") v) (js "reason") w)) dd
  = normalizeRecord (VObject raw) dd.
Proof.
  unfold normalizeRecord, get.
  rewrite !lookup_assign_other by reflexivity. reflexivity.
Qed.

(* ================================================================== *)
(** * No exception leaves parseSignalText *)
(* ================================================================== *)

Lemma ToString_scalar v : scalar v = true -> exists s, ToString v = Ok s.
Proof. destruct v; cbn; try discriminate; eauto. Qed.

Lemma or_empty_scalar v : scalar v = true -> scalar (or_empty v) = true.
Proof. unfold or_empty. destruct (truthy v); auto. Qed.

Lemma normalizeCode_scalar v :
  scalar v = true -> exists s, normalizeCode v = Ok s.
Proof.
  intros Hv. unfold normalizeCode. destruct (negb (truthy v)); [eauto|].
  destruct (ToString_scalar v Hv) as [s ->]. cbn. eauto.
Qed.

Lemma parseSectorPattern_scalar v :
  scalar v = true -> exists p, parseSectorPattern v = Ok p.
Proof.
  intros Hv. unfold parseSectorPattern.
  destruct (ToString_scalar _ (or_empty_scalar v Hv)) as [s ->]. cbn.
  repeat match goal with |- context [if ?b then _ else _] => destruct b end;
    eauto.
Qed.

Lemma percentField_scalar v :
  scalar v = true -> exists t, percentField v = Ok t.
Proof.
  intros Hv. unfold percentField.
  destruct (ToString_scalar _ (or_empty_scalar v Hv)) as [s ->]. cbn. eauto.
Qed.

Lemma get_field raw k : get (VObject raw) k = Ok (field raw k).
Proof. unfold get, field. destruct (lookup raw k); reflexivity. Qed.

Lemma field_flat raw k :
  forallb flat_entry raw = true -> flat_entry (k, field raw k) = true.
Proof.
  intros Hraw. unfold field, lookup.
  destruct (find _ raw) as [[k' v]|] eqn:F; [|reflexivity].
  apply find_some in F as [Hin Hk]. cbn in Hk. apply str_eqb_eq in Hk as <-.
  rewrite forallb_forall in Hraw. exact (Hraw _ Hin).
Qed.

Lemma flat_scalar k v : flat_entry (k, v) = true -> scalar v = true.
Proof. destruct v; cbn; auto. Qed.

Lemma call_trim_name v :
  flat_entry (js "name", v) = true -> exists s, call_trim (or_empty v) = Ok s.
Proof.
  destruct v; cbn; try discriminate; eauto.
  unfold or_empty. cbn. destruct (nonempty s); cbn; eauto.
Qed.

(** A raw row of the text path is normalized without exception. *)
Lemma normalizeRecord_flat raw dd :
  forallb flat_entry raw = true ->
  exists r, normalizeRecord (VObject raw) dd = Ok r.
Proof.
  intros Hraw. unfold normalizeRecord.
  pose proof (fun k => flat_scalar _ _ (field_flat raw k Hraw)) as Hs.
  rewrite !get_field. cbn [bind].
  destruct (normalizeCode_scalar _ (Hs (js "code"))) as [c ->]. cbn [bind].
  destruct (call_trim_name _ (field_flat raw (js "name") Hraw)) as [n ->].
  cbn [bind].
  destruct (parseSectorPattern_scalar _ (Hs (js "sector_pattern"))) as [p ->].
  cbn [bind].
  destruct (percentField_scalar _ (Hs (js "turnover"))) as [t ->]. cbn [bind].
  destruct (percentField_scalar _ (Hs (js "chg"))) as [g ->]. cbn [bind].
  destruct (ToString_scalar _ (or_empty_scalar _ (Hs (js "amount")))) as [a ->].
  cbn [bind].
  destruct (percentField_scalar _ (Hs (js "debt_ratio"))) as [d ->]. cbn [bind].
  eauto.
Qed.

Lemma assign_flat raw k v :
  forallb flat_entry raw = true -> flat_entry (k, v) = true ->
  forallb flat_entry (assign raw k v) = true.
Proof.
  intros Hraw Hv. induction raw as [|[k' v'] raw IH]; cbn.
  - rewrite Hv. reflexivity.
  - cbn in Hraw. apply andb_prop in Hraw as [H1 H2].
    destruct (str_eqb k' k) eqn:E; cbn.
    + apply str_eqb_eq in E as ->. rewrite Hv, H2. reflexivity.
    + rewrite H1, (IH H2). reflexivity.
Qed.

Lemma headerRaw_flat headers parts :
  forallb flat_entry (headerRaw headers parts) = true.
Proof.
  unfold headerRaw.
  assert (H : forall hps raw, forallb flat_entry raw = true ->
            forallb flat_entry
              (fold_left (fun raw hp =>
                 match mapHeaderToKey (fst hp) with
                 | Some key => assign raw key (VString (snd hp))
                 | None => raw
                 end) hps raw) = true).
  { induction hps as [|hp hps IH]; cbn; intros raw Hraw; [exact Hraw|].
    apply IH. destruct (mapHeaderToKey (fst hp)); [|exact Hraw].
    apply assign_flat; [exact Hraw | reflexivity]. }
  apply H. reflexivity.
Qed.

Lemma heuristicRaw_flat parts : forallb flat_entry (heuristicRaw parts) = true.
Proof.
  unfold heuristicRaw.
  repeat (apply assign_flat; [|
    match goal with
    | |- flat_entry (_, string_or_undefined ?o) = true => destruct o; reflexivity
    | |- flat_entry (_, number_or_undefined ?o) = true => destruct o; reflexivity
    end]).
  reflexivity.
Qed.

Lemma blockRaw_flat block : forallb flat_entry (blockRaw block) = true.
Proof.
  unfold blockRaw.
  assert (H : forall ls raw, forallb flat_entry raw = true ->
            forallb flat_entry
              (fold_left (fun raw bline =>
                 match match_label [] bline with
                 | Some (label, v) =>
                   match mapHeaderToKey (trim label) with
                   | Some key => assign raw key (VString (trim v))
                   | None => raw
                   end
                 | None => raw
                 end) ls raw) = true).
  { induction ls as [|l ls IH]; cbn; intros raw Hraw; [exact Hraw|].
    apply IH. destruct (match_label [] l) as [[label v]|]; [|exact Hraw].
    destruct (mapHeaderToKey (trim label)); [|exact Hraw].
    apply assign_flat; [exact Hraw | reflexivity]. }
  apply H. reflexivity.
Qed.

Lemma tableRow_returns headers separator dd line :
  exists o, tableRow headers separator dd line = Ok o.
Proof.
  unfold tableRow.
  destruct (negb (nonempty (trim line))); [eauto|].
  destruct (_ && _ && _); [eauto|].
  destruct (_ <? 2)%nat; [eauto|].
  match goal with
  | |- context [normalizeRecord (VObject ?raw) dd] =>
    assert (Hraw : forallb flat_entry raw = true)
      by (destruct (0 <? length headers)%nat;
          [apply headerRaw_flat | apply heuristicRaw_flat]);
    destruct (normalizeRecord_flat raw dd Hraw) as [r ->]
  end.
  cbn [bind]. destruct (keep r); eauto.
Qed.

Lemma blockRow_returns dd block : exists o, blockRow dd block = Ok o.
Proof.
  unfold blockRow. destruct (0 <? _)%nat; [|eauto].
  destruct (normalizeRecord_flat _ dd (blockRaw_flat block)) as [r ->].
  cbn [bind]. destruct (keep r); eauto.
Qed.

Lemma pushEach_returns {A} (row : A -> result (option SignalRecord)) items :
  (forall item, exists o, row item = Ok o) ->
  forall records, exists rs, pushEach row items records = Ok rs.
Proof.
  intros Hrow. induction items as [|item rest IH]; cbn; intros records.
  - eauto.
  - destruct (Hrow item) as [o ->]. cbn [bind]. apply IH.
Qed.

Lemma textPath_returns trimmed dd : exists rs, textPath trimmed dd = Ok rs.
Proof.
  unfold textPath. destruct (length _ =? 0)%nat; [eauto|].
  assert (Ht : exists rs, tablePath
             (filter (fun l => nonempty (trim l))
                     (split_on (is_unit LF) trimmed)) dd = Ok rs).
  { unfold tablePath. destruct (filter _ _) as [|line0 rest]; [eauto|].
    apply pushEach_returns. intros item. apply tableRow_returns. }
  destruct Ht as [records ->]. cbn [bind].
  destruct (length records =? 0)%nat; [|eauto].
  apply pushEach_returns. intros item. apply blockRow_returns.
Qed.

(** C1. For every input text parseSignalText returns a list of records and
    throws nothing; when the JSON strategy throws, whatever it throws, the
    result is that of the text strategies, which throw nothing either. *)
Theorem parseSignalText_never_throws text dd :
  (exists rs, parseSignalText text dd = Ok rs)
  /\ (forall e, jsonPath (trim text) dd = Throw e ->
                parseSignalText text dd = textPath (trim text) dd)
  /\ (exists rs, textPath (trim text) dd = Ok rs).
Proof.
  pose proof (textPath_returns (trim text) dd) as Ht.
  unfold parseSignalText. split; [|split].
  - destruct (startsWith _ _); [|exact Ht].
    destruct (jsonPath _ _); cbn; eauto.
  - intros e He. rewrite He. cbn. destruct (startsWith _ _); reflexivity.
  - exact Ht.
Qed.

(* ================================================================== *)
(** * Hosts that agree on Basic Latin and CJK text *)
(* ================================================================== *)

Lemma settled_lower h s : @toLowerCase h s = @toLowerCase (settled h) s.
Proof.
  cbn. destruct (forallb plain_unit s) eqn:E.
  - apply toLowerCase_plain. exact E.
  - reflexivity.
Qed.

Lemma mapHeaderToKey_settled h header :
  @mapHeaderToKey h header = @mapHeaderToKey (settled h) header.
Proof. unfold mapHeaderToKey. rewrite (settled_lower h header). reflexivity. Qed.

Lemma headerRaw_settled h headers parts :
  @headerRaw h headers parts = @headerRaw (settled h) headers parts.
Proof.
  unfold headerRaw. generalize (@nil (jsstring * value)%type).
  induction (combine headers parts) as [|hp hps IH]; cbn; intros raw.
  - reflexivity.
  - rewrite (mapHeaderToKey_settled h (fst hp)). apply IH.
Qed.

Lemma blockRaw_settled h block :
  @blockRaw h block = @blockRaw (settled h) block.
Proof.
  unfold blockRaw. generalize (@nil (jsstring * value)%type).
  induction (filter _ _) as [|l ls IH]; cbn; intros raw.
  - reflexivity.
  - destruct (match_label [] l) as [[label v]|]; [|apply IH].
    rewrite (mapHeaderToKey_settled h (trim label)). apply IH.
Qed.

Lemma normalizeRecord_settled h raw dd :
  @normalizeRecord h raw dd = @normalizeRecord (settled h) raw dd.
Proof. reflexivity. Qed.

Lemma tableRow_settled h headers separator dd line :
  @tableRow h headers separator dd line
  = @tableRow (settled h) headers separator dd line.
Proof.
  unfold tableRow. rewrite (headerRaw_settled h headers). reflexivity.
Qed.

Lemma blockRow_settled h dd block :
  @blockRow h dd block = @blockRow (settled h) dd block.
Proof. unfold blockRow. rewrite (blockRaw_settled h block). reflexivity. Qed.

Lemma pushEach_ext {A} (row1 row2 : A -> result (option SignalRecord)) items :
  (forall item, row1 item = row2 item) ->
  forall records, pushEach row1 items records = pushEach row2 items records.
Proof.
  intros Hrow. induction items as [|item rest IH]; cbn; intros records.
  - reflexivity.
  - rewrite (Hrow item). destruct (row2 item) as [[r|]|e]; cbn; auto.
Qed.

Lemma tablePath_settled h lines dd :
  @tablePath h lines dd = @tablePath (settled h) lines dd.
Proof.
  unfold tablePath. destruct lines as [|line0 rest]; [reflexivity|].
  rewrite (settled_lower h line0).
  rewrite (map_ext (fun c => @toLowerCase h (trim c))
                   (fun c => @toLowerCase (settled h) (trim c)))
    by (intros c; apply settled_lower).
  apply pushEach_ext. intros item. apply tableRow_settled.
Qed.

Lemma textPath_settled h trimmed dd :
  @textPath h trimmed dd = @textPath (settled h) trimmed dd.
Proof.
  unfold textPath. destruct (length _ =? 0)%nat; [reflexivity|].
  rewrite (tablePath_settled h _ dd).
  destruct (@tablePath (settled h) _ dd) as [records|e]; cbn [bind];
    [|reflexivity].
  destruct (length records =? 0)%nat; [|reflexivity].
  apply pushEach_ext. intros item. apply blockRow_settled.
Qed.

Lemma parseSignalText_settled h text dd :
  @parseSignalText h text dd = @parseSignalText (settled h) text dd.
Proof.
  unfold parseSignalText. rewrite (textPath_settled h (trim text) dd).
  reflexivity.
Qed.

(** [run] brings a parse of a given text to its value. *)
Ltac run :=
  match goal with
  | |- context [@parseSignalText ?h ?text ?dd] =>
    rewrite (parseSignalText_settled h text dd); vm_compute
  end.

(** C9. The text of a header line 代码,名称,换手率 and the row
    002371,Y,6.5 parses to one record: code 002371, name Y, turnover 6.5,
    no sector pattern, and score 20. *)
Theorem header_table_scenario dd :
  exists r,
    parseSignalText (js "代码,名称,换手率\n002371,Y,6.5") dd = Ok [r]
    /\ code r = js "002371"
    /\ name r = js "Y"
    /\ turnover r = Some six_and_a_half
    /\ sector_pattern r = None
    /\ score r = 20%Z.
Proof.
  eexists. split; [run; reflexivity|]. repeat split.
Qed.

(* ================================================================== *)
(** * normalizeCode *)
(* ================================================================== *)

Lemma remove_non_digits s :
  remove_all (fun c => negb (is_digit c)) s = filter is_digit s.
Proof.
  unfold remove_all. apply filter_ext. intros c. apply negb_involutive.
Qed.

Lemma filter_all (p : unit16 -> bool) s : forallb p s = true -> filter p s = s.
Proof.
  induction s as [|c s IH]; cbn; [reflexivity|].
  intros H. apply andb_prop in H as [Hc Hs]. rewrite Hc, (IH Hs). reflexivity.
Qed.

Lemma normalizeCode_string s :
  normalizeCode (VString s)
  = Ok (if nonempty s then padStart0 6 (filter is_digit s) else []).
Proof.
  unfold normalizeCode. cbn [truthy]. destruct (nonempty s); cbn.
  - rewrite remove_non_digits. reflexivity.
  - reflexivity.
Qed.

(** C8. normalizeCode drops every unit that is not a digit and pads on the
    left with zeros up to six units: a digit string of one to six units
    comes out six units long, itself on the right and zeros before it;
    600519 stays 600519 and 1 becomes 000001; the empty string, [null] and
    [undefined] give the empty string; a digit string of more than six
    units is returned as it is. *)
Theorem normalizeCode_pads_to_six (s : jsstring) :
  normalizeCode (VString s)
  = Ok (if nonempty s then padStart0 6 (filter is_digit s) else [])
  /\ (s <> [] -> forallb is_digit s = true -> (length s <= 6)%nat ->
      normalizeCode (VString s) = Ok (repeat 48%N (6 - length s) ++ s)
      /\ length (repeat 48%N (6 - length s) ++ s) = 6%nat)
  /\ (forallb is_digit s = true -> (6 < length s)%nat ->
      normalizeCode (VString s) = Ok s)
  /\ normalizeCode (VString []) = Ok []
  /\ normalizeCode VNull = Ok []
  /\ normalizeCode VUndefined = Ok []
  /\ normalizeCode (VString (js "600519")) = Ok (js "600519")
  /\ normalizeCode (VString (js "1")) = Ok (js "000001").
Proof.
  split; [apply normalizeCode_string|].
  split; [|split; [|repeat split]].
  - intros Hne Hd Hlen. rewrite normalizeCode_string.
    destruct s as [|c s']; [congruence|]. cbn [nonempty].
    rewrite (filter_all _ _ Hd). unfold padStart0. split; [reflexivity|].
    rewrite length_app, repeat_length. unfold unit16 in *. lia.
  - intros Hd Hlen. rewrite normalizeCode_string.
    destruct s as [|c s']; [cbn in Hlen; lia|]. cbn [nonempty].
    rewrite (filter_all _ _ Hd). unfold padStart0.
    replace (6 - length (c :: s'))%nat with 0%nat
      by (unfold unit16 in *; lia).
    reflexivity.
Qed.

(* ================================================================== *)
(** * Rows of fewer than two cells *)
(* ================================================================== *)

Lemma split_on_none (p : unit16 -> bool) s :
  existsb p s = false -> split_on p s = [s].
Proof.
  induction s as [|c s IH]; cbn; [reflexivity|].
  intros H. apply orb_false_elim in H as [Hc Hs].
  rewrite Hc, (IH Hs). reflexivity.
Qed.

Lemma trimStart_incl s c : In c (trimStart s) -> In c s.
Proof.
  induction s as [|x s IH]; cbn; [auto|].
  destruct (is_ws x); cbn; auto.
Qed.

Lemma trim_incl s c : In c (trim s) -> In c s.
Proof.
  unfold trim, trimEnd. intros H.
  apply in_rev, trimStart_incl, in_rev in H.
  apply trimStart_incl. exact H.
Qed.

Lemma existsb_trim (p : unit16 -> bool) s :
  existsb p s = false -> existsb p (trim s) = false.
Proof.
  intros H. destruct (existsb p (trim s)) eqn:E; [|reflexivity].
  apply existsb_exists in E as (c & Hin & Hc).
  rewrite <- H. symmetry. apply existsb_exists. exists c.
  split; [apply trim_incl; exact Hin | exact Hc].
Qed.

Lemma tableRow_few_cells headers separator dd line :
  (length (split_on (is_unit separator) (trim line)) < 2)%nat ->
  tableRow headers separator dd line = Ok None.
Proof.
  intros Hlen. unfold tableRow.
  destruct (negb (nonempty (trim line))); [reflexivity|].
  destruct (_ && _ && _); [reflexivity|].
  rewrite length_map.
  apply Nat.ltb_lt in Hlen. rewrite Hlen. reflexivity.
Qed.

Lemma tablePath_single_token dd line :
  looksLikeHeader (toLowerCase line) = false ->
  existsb (is_unit (detectSeparator (toLowerCase line))) line = false ->
  tablePath [line] dd = Ok [].
Proof.
  intros Hh Hsep. unfold tablePath. rewrite Hh. cbn [pushEach].
  rewrite tableRow_few_cells; [reflexivity|].
  rewrite (split_on_none _ _ (existsb_trim _ _ Hsep)). cbn. lia.
Qed.

(** Every record of a pushing loop was there before or was pushed for one
    of the items. *)
Lemma pushEach_In {A} (row : A -> result (option SignalRecord)) items :
  forall records rs r,
    pushEach row items records = Ok rs -> In r rs ->
    In r records \/ exists item, In item items /\ row item = Ok (Some r).
Proof.
  induction items as [|item rest IH]; cbn; intros records rs r H Hin.
  - injection H as <-. left. exact Hin.
  - bind_inv H. destruct (IH _ _ _ H Hin) as [Hacc|(it & Hit & Hrow)].
    + destruct v as [r0|]; [|left; exact Hacc].
      apply in_app_or in Hacc as [Hacc|[<-|[]]]; [left; exact Hacc|].
      right. exists item. split; [left; reflexivity | exact E].
    + right. exists it. split; [right; exact Hit | exact Hrow].
Qed.

Lemma tableRow_Some_cells headers separator dd line r :
  tableRow headers separator dd line = Ok (Some r) ->
  (2 <= length (split_on (is_unit separator) (trim line)))%nat.
Proof.
  intros H.
  destruct (Nat.lt_ge_cases (length (split_on (is_unit separator) (trim line))) 2)
    as [Hlt|Hge]; [|exact Hge].
  rewrite (tableRow_few_cells headers separator dd line Hlt) in H.
  discriminate H.
Qed.

(** C10. In the table path a data line that splits into fewer than two
    cells under the delimiter in use is passed over, with headers or
    without; every record of the table path comes from a line of two cells
    or more; so a text of one line that is no header and holds no delimiter
    gives the table path no record, and the text 600519 gives none, from
    the table path and from parseSignalText as a whole. *)
Theorem single_cell_row_is_skipped :
  (forall headers separator dd line,
      (length (split_on (is_unit separator) (trim line)) < 2)%nat ->
      tableRow headers separator dd line = Ok None)
  /\ (forall lines dd rs r,
         tablePath lines dd = Ok rs -> In r rs ->
         exists line,
           In line lines
           /\ (2 <= length (split_on
                              (is_unit (detectSeparator
                                          (toLowerCase (hd [] lines))))
                              (trim line)))%nat)
  /\ (forall dd line,
         looksLikeHeader (toLowerCase line) = false ->
         existsb (is_unit (detectSeparator (toLowerCase line))) line = false ->
         tablePath [line] dd = Ok [])
  /\ (forall dd,
         tableRow [] COMMA dd (js "600519") = Ok None
         /\ tablePath [js "600519"] dd = Ok []
         /\ parseSignalText (js "600519") dd = Ok []).
Proof.
  split; [exact tableRow_few_cells|]. split; [|split].
  - intros lines dd rs r H Hin. unfold tablePath in H.
    destruct lines as [|line0 rest]; [injection H as <-; destruct Hin|].
    cbn [hd].
    destruct (@pushEach_In _ _ _ _ _ _ H Hin) as [[]|(line & Hline & Hrow)].
    exists line. split.
    + destruct (looksLikeHeader _); [right|]; exact Hline.
    + exact (tableRow_Some_cells _ _ _ _ Hrow).
  - exact tablePath_single_token.
  - intros dd. split; [|split].
    + apply tableRow_few_cells. vm_compute. lia.
    + rewrite tablePath_settled. reflexivity.
    + run. reflexivity.
Qed.

(* ================================================================== *)
(** * Where the code leaves the specification *)
(* ================================================================== *)

(** The text path keeps only rows with a code or a name. *)
Lemma textPath_keeps_identified trimmed dd rs :
  textPath trimmed dd = Ok rs ->
  Forall (fun r => code r <> [] \/ name r <> []) rs.
Proof.
  apply textPath_Forall. intros raw r _ Hk. unfold keep in Hk.
  apply orb_prop in Hk as [Hk|Hk]; [left|right]; intros E; rewrite E in Hk;
    discriminate.
Qed.

(** C2, at the input [[{}]]. The JSON path returns what normalizeRecord
    makes of every element, unfiltered: the one record returned has neither
    a code nor a name, a record the test of the table and block paths
    drops. *)
Theorem json_path_keeps_anonymous_rows dd :
  exists r,
    parseSignalText (js "[{}]") dd = Ok [r]
    /\ code r = [] /\ name r = [] /\ keep r = false.
Proof.
  eexists. split; [run; reflexivity|]. repeat split.
Qed.

(** C3, at a JSON row and at a table row without sector text. The sector
    of the record is the empty list: normalizeRecord has no placeholder. *)
Theorem sector_may_be_empty dd :
  (exists r,
      parseSignalText (jq "[{'code':'600519','name':'X'}]") dd = Ok [r]
      /\ sector r = [])
  /\ (exists r,
         parseSignalText (js "代码,名称\n600519,X") dd = Ok [r]
         /\ sector r = []).
Proof.
  split; eexists; (split; [run; reflexivity|]); reflexivity.
Qed.

(** A percentage field is never NaN and never zero: [x || null] turns both
    into [null]. *)
Lemma percentField_nonzero v x :
  percentField v = Ok (Some x) -> isNaN x = false /\ num_truthy x = true.
Proof.
  unfold percentField. intros H. bind_inv H. injection H as H.
  unfold or_null in H. destruct (num_truthy _) eqn:T; [|discriminate].
  injection H as <-. split; [|exact T].
  destruct (parseFloat _); try reflexivity; discriminate.
Qed.

(** C4, at the turnovers ["0"], [0] and ["0%"], and at the change
    ["0.00%"]. Each is read as the number zero, which [|| null] then turns
    into [null]. *)
Theorem zero_is_read_as_null dd :
  exists r1 r2 r3,
    parseSignalText
      (jq "[{'code':'1','turnover':'0'},{'code':'2','turnover':0},{'code':'3','turnover':'0%','chg':'0.00%'}]")
      dd = Ok [r1; r2; r3]
    /\ turnover r1 = None /\ turnover r2 = None
    /\ turnover r3 = None /\ chg r3 = None
    /\ parseFloat (js "0") = S754_zero false
    /\ or_null (parseFloat (js "0")) = None.
Proof.
  do 3 eexists. split; [run; reflexivity|]. repeat split.
Qed.

(** The texts of scenarios C and E, and an array with a [null] in it:
    each gives the empty list, on every host. *)
Example malformed_texts_give_nothing dd :
  parseSignalText [] dd = Ok []
  /\ parseSignalText (js "]not json[") dd = Ok []
  /\ parseSignalText (js "[{invalid") dd = Ok []
  /\ parseSignalText (js "[null]") dd = Ok [].
Proof. repeat split; run; reflexivity. Qed.

(** ** What the form does in the same places *)

(** rowToRecord refuses a row without code and name. *)
Lemma rowToRecord_needs_identity row date :
  row_code row = [] -> row_name row = [] -> rowToRecord row date = None.
Proof. intros Hc Hn. unfold rowToRecord. rewrite Hc, Hn. reflexivity. Qed.

(** rowToRecord never leaves the sector empty. *)
Lemma rowToRecord_sector_nonempty row date r :
  rowToRecord row date = Some r -> sector r <> [].
Proof.
  unfold rowToRecord. intros H.
  destruct (_ && _); [discriminate|]. cbv zeta in H.
  destruct (_ || _); [discriminate|].
  injection H as <-. cbn [sector].
  destruct (filter nonempty _) as [|x xs]; cbn; discriminate.
Qed.

(** rowToRecord keeps a turnover of zero. *)
Example rowToRecord_keeps_zero :
  exists r,
    rowToRecord {| row_code := js "600519"; row_name := js "X";
                   row_sector := []; row_sector_pattern := [];
                   row_turnover := js "0"; row_chg := js "0.00";
                   row_amount := []; row_debt_ratio := [] |}
                (js "2025-01-01") = Some r
    /\ turnover r = Some (S754_zero false)
    /\ chg r = Some (S754_zero false)
    /\ sector r = [VString (js "未分类")].
Proof. eexists. split; [vm_compute; reflexivity|]. repeat split. Qed.

End ParserFacts.

(* ================================================================== *)
(** * Runs on the sample host *)
(* ================================================================== *)

(** C1 at the text [[null]]: the JSON strategy throws a TypeError, and the
    result is the empty list of the text strategies. *)
Lemma parseSignalText_never_throws_witness :
  @jsonPath sample_host (trim (js "[null]")) None = Throw TypeError
  /\ @parseSignalText sample_host (js "[null]") None = Ok [].
Proof.
  split; [vm_compute; reflexivity|].
  rewrite (proj1 (proj2 (@parseSignalText_never_throws
                           sample_host (js "[null]") None)) TypeError);
    vm_compute; reflexivity.
Defined.

(** C5 at a JSON row that carries a score and a reason of its own: the
    record has the score 20 of its turnover, not the 99 of the input. *)
Lemma score_is_recomputed_witness :
  exists r,
    @parseSignalText sample_host
      (jq "[{'code':'600519','name':'X','turnover':'6.5%','score':99,'reason':['trusted']}]")
      None = Ok [r]
    /\ In r [r]
    /\ score r = 20%Z
    /\ score r = cs_score (@calculateScore sample_host
                             {| in_sector_pattern := sector_pattern r;
                                in_turnover := turnover r |})
    /\ reason r = cs_reason (@calculateScore sample_host
                               {| in_sector_pattern := sector_pattern r;
                                  in_turnover := turnover r |}).
Proof.
  eexists. split; [vm_compute; reflexivity|].
  split; [left; reflexivity|]. split; [reflexivity|].
  match goal with
  | |- score ?r = _ /\ _ =>
    apply (@score_is_recomputed sample_host
             (jq "[{'code':'600519','name':'X','turnover':'6.5%','score':99,'reason':['trusted']}]")
             None [r] r)
  end.
  - vm_compute. reflexivity.
  - left. reflexivity.
Defined.

(** C6 at no sector pattern and a turnover of 8. *)
Lemma turnover_tiers_exclusive_witness :
  num_ge (of_Z 8) (of_Z 8) = true
  /\ (cs_score (@calculateScore sample_host
                  {| in_sector_pattern := None; in_turnover := Some (of_Z 8) |})
      - cs_score (@calculateScore sample_host
                    {| in_sector_pattern := None; in_turnover := None |})
      = 30)%Z.
Proof.
  split; [reflexivity|].
  apply (proj1 (@turnover_tiers_exclusive sample_host None (of_Z 8))).
  reflexivity.
Defined.

(** C8 at the code 1. *)
Lemma normalizeCode_pads_to_six_witness :
  js "1" <> []
  /\ forallb is_digit (js "1") = true
  /\ (length (js "1") <= 6)%nat
  /\ @normalizeCode sample_host (VString (js "1")) = Ok (js "000001").
Proof.
  assert (Hne : js "1" <> []) by discriminate.
  assert (Hd : forallb is_digit (js "1") = true) by reflexivity.
  assert (Hlen : (length (js "1") <= 6)%nat) by (vm_compute; lia).
  split; [exact Hne|]. split; [exact Hd|]. split; [exact Hlen|].
  exact (proj1 (proj1 (proj2 (@normalizeCode_pads_to_six sample_host (js "1")))
                      Hne Hd Hlen)).
Defined.

(** C10 at the line 600519 under the comma. *)
Lemma single_cell_row_is_skipped_witness :
  (length (split_on (is_unit COMMA) (trim (js "600519"))) < 2)%nat
  /\ @tableRow sample_host [] COMMA None (js "600519") = Ok None.
Proof.
  assert (H : (length (split_on (is_unit COMMA) (trim (js "600519"))) < 2)%nat)
    by (vm_compute; lia).
  split; [exact H|].
  exact (proj1 (@single_cell_row_is_skipped sample_host) [] COMMA None
               (js "600519") H).
Defined.

(** Scenario A: a JSON row with the pattern 水下拉水上 and the turnover 3.2
    given as a number. *)
Example json_scenario :
  exists r,
    @parseSignalText sample_host
      (jq "[{'code':'600519','name':'X','sector':'白酒','sector_pattern':'水下拉水上','turnover':3.2}]")
      None = Ok [r]
    /\ code r = js "600519"
    /\ sector r = [VString (js "白酒")]
    /\ sector_pattern r = Some PatternA
    /\ score r = 40%Z
    /\ reason r = [js "板块分时：水下拉水上 +30"; js "换手率3.2% >= 3% +10"].
Proof. eexists. split; [vm_compute; reflexivity|]. repeat split. Qed.

(** A headerless row, read by the positional heuristics. *)
Example headerless_row :
  exists r,
    @parseSignalText sample_host (js "600519,茅台,白酒、消费,8.5%,+1.25") None
    = Ok [r]
    /\ code r = js "600519"
    /\ name r = js "茅台"
    /\ sector r = [VString (js "白酒"); VString (js "消费")]
    /\ score r = 30%Z
    /\ reason r = [js "板块分时信息缺失"; js "换手率8.5% >= 8% +30"].
Proof. eexists. split; [vm_compute; reflexivity|]. repeat split. Qed.

(* ================================================================== *)
(** * More of the scoring engine *)
(* ================================================================== *)

Section ScoringMore.
Context {host : Host}.

Local Open Scope Z_scope.

(** The order of numbers passes through a threshold: if [x] is at least a
    positive finite [t] and [y] is at least [x], then [y] is at least [t]. *)
Lemma num_ge_through bound_m bound_e x y :
  num_ge x (S754_finite false bound_m bound_e) = true ->
  num_ge y x = true ->
  num_ge y (S754_finite false bound_m bound_e) = true.
Proof.
  unfold num_ge, SFleb, SFcompare.
  destruct x as [sx|sx| |sx mx ex]; try discriminate.
  - destruct sx; [discriminate|]. intros _.
    destruct y as [sy|sy| |sy my ey]; try discriminate;
      destruct sy; try discriminate; auto.
  - destruct sx; [discriminate|].
    destruct y as [sy|sy| |sy my ey]; try discriminate.
    + destruct sy; try discriminate; auto.
    + destruct sy; [discriminate|].
      destruct (Z.compare_spec bound_e ex) as [E1|E1|E1];
        destruct (Z.compare_spec ex ey) as [E2|E2|E2];
        destruct (Z.compare_spec bound_e ey) as [E3|E3|E3];
        try lia; try discriminate; auto.
      subst. change (Pos.compare_cont Eq) with Pos.compare.
      destruct (Pos.compare_spec bound_m mx); try discriminate;
        destruct (Pos.compare_spec mx my); try discriminate;
        destruct (Pos.compare_spec bound_m my); try lia; auto.
Qed.

Lemma num_ge_keeps_threshold (n : Z) x y :
  (0 < n)%Z ->
  num_ge x (of_Z n) = true -> num_ge y x = true -> num_ge y (of_Z n) = true.
Proof.
  intros Hn. destruct n as [|p|p]; try lia.
  unfold of_Z, binary_normalize, binary_round.
  destruct (shl_align _ _ _) as [mz ez].
  unfold binary_round_aux.
  destruct (shr_fexp _ _ _ _ _) as [mrs e'].
  destruct (shr_fexp _ _ _ _ _) as [mrs' e''].
  destruct (shr_m mrs') as [|m|m].
  - destruct x as [sx|sx| |sx mx ex]; try (destruct sx); try discriminate;
      destruct y as [sy|sy| |sy my ey]; try (destruct sy); try discriminate;
      auto.
  - destruct (e'' <=? emax - prec).
    + apply num_ge_through.
    + destruct x as [sx|sx| |sx mx ex]; try (destruct sx); try discriminate;
        destruct y as [sy|sy| |sy my ey]; try (destruct sy); try discriminate;
        auto.
  - destruct x; discriminate.
Qed.

Lemma score_split sp t :
  cs_score (calculateScore {| in_sector_pattern := sp; in_turnover := t |})
  = match sp with Some PatternA => 30 | Some PatternB => 20 | None => 0 end
    + turnover_bonus t.
Proof.
  pose proof (rule_total_range {| in_sector_pattern := sp; in_turnover := t |}) as R.
  rewrite calculateScore_score. unfold clamp.
  rewrite Z.min_r, Z.max_r by lia.
  unfold rule_total. cbn [in_turnover in_sector_pattern].
  destruct t as [x|].
  - rewrite turnover_rule_fst, sector_rule_fst. reflexivity.
  - rewrite turnover_rule_none_fst, sector_rule_fst. cbn. lia.
Qed.

(** X2. The score does not fall when the turnover rises: a record with the
    same sector pattern and a turnover that is at least as large scores at
    least as much, and any turnover scores at least as much as none. *)
Theorem score_monotone_in_turnover (sp : option pattern) (x y : number) :
  num_ge y x = true ->
  cs_score (calculateScore {| in_sector_pattern := sp; in_turnover := None |})
  <= cs_score (calculateScore {| in_sector_pattern := sp; in_turnover := Some x |})
  <= cs_score (calculateScore {| in_sector_pattern := sp; in_turnover := Some y |}).
Proof.
  intros Hxy. rewrite !score_split. cbn [turnover_bonus].
  pose proof (fun n Hn H => @num_ge_keeps_threshold n x y Hn H Hxy) as K.
  destruct (num_ge x (of_Z 8)) eqn:X8.
  { rewrite (K 8 ltac:(lia) X8). lia. }
  destruct (num_ge x (of_Z 5)) eqn:X5.
  { rewrite (K 5 ltac:(lia) X5). destruct (num_ge y (of_Z 8)); lia. }
  destruct (num_ge x (of_Z 3)) eqn:X3.
  { rewrite (K 3 ltac:(lia) X3).
    destruct (num_ge y (of_Z 8)), (num_ge y (of_Z 5)); lia. }
  destruct (num_ge y (of_Z 8)), (num_ge y (of_Z 5)), (num_ge y (of_Z 3)); lia.
Qed.

(** X3. The score is one of 0, 10, 20, 30, 40, 50 and 60; it is 60 only
    for the pattern 水下拉水上 with a turnover of 8 or more, and 0 only
    without a sector pattern and without a turnover of 3 or more. *)
Theorem score_values (r : ScoreInput) :
  In (cs_score (calculateScore r)) [0; 10; 20; 30; 40; 50; 60]
  /\ (cs_score (calculateScore r) = 60 <->
      in_sector_pattern r = Some PatternA
      /\ exists x, in_turnover r = Some x /\ num_ge x (of_Z 8) = true)
  /\ (cs_score (calculateScore r) = 0 <->
      in_sector_pattern r = None
      /\ forall x, in_turnover r = Some x -> num_ge x (of_Z 3) = false).
Proof.
  destruct r as [sp t]. rewrite score_split. cbn [in_sector_pattern in_turnover].
  split; [|split].
  - destruct t as [x|]; cbn [turnover_bonus];
      [destruct (num_ge x (of_Z 8)), (num_ge x (of_Z 5)), (num_ge x (of_Z 3))|];
      destruct sp as [[|]|]; cbn; auto 10.
  - split.
    + intros H. destruct t as [x|]; cbn [turnover_bonus] in H.
      * destruct (num_ge x (of_Z 8)) eqn:X8;
          [|destruct (num_ge x (of_Z 5)); [|destruct (num_ge x (of_Z 3))]];
          destruct sp as [[|]|]; try lia.
        split; [reflexivity|]. exists x. split; [reflexivity | exact X8].
      * destruct sp as [[|]|]; lia.
    + intros [-> (x & -> & Hx)]. cbn [turnover_bonus]. rewrite Hx. reflexivity.
  - split.
    + intros H. destruct t as [x|]; cbn [turnover_bonus] in H.
      * destruct (num_ge x (of_Z 8));
          [|destruct (num_ge x (of_Z 5));
            [|destruct (num_ge x (of_Z 3)) eqn:X3]];
          destruct sp as [[|]|]; try lia.
        split; [reflexivity|]. intros x' [= <-]. exact X3.
      * destruct sp as [[|]|]; try lia.
        split; [reflexivity|]. intros x' [=].
    + intros [-> H]. destruct t as [x|]; cbn [turnover_bonus]; [|reflexivity].
      specialize (H x eq_refl).
      pose proof (num_ge_8_5 x) as H85. pose proof (num_ge_5_3 x) as H53.
      destruct (num_ge x (of_Z 5)); [specialize (H53 eq_refl); congruence|].
      destruct (num_ge x (of_Z 8)); [specialize (H85 eq_refl); congruence|].
      rewrite H. reflexivity.
Qed.

Lemma reasons_split sp t :
  cs_reason (calculateScore {| in_sector_pattern := sp; in_turnover := t |})
  = sector_reason sp :: turnover_reasons t.
Proof.
  unfold calculateScore, rule_total. cbn [in_sector_pattern in_turnover].
  assert (Hs : snd (sector_rule sp (0, [])) = [sector_reason sp])
    by (destruct sp as [[|]|];
        cbn [sector_rule award note snd fst app sector_reason]; reflexivity).
  destruct (sector_rule sp (0, [])) as [total reasons]. cbn [snd] in Hs.
  subst reasons. unfold turnover_rule, turnover_reasons.
  destruct t as [x|];
    [destruct (num_ge x (of_Z 8)); [|destruct (num_ge x (of_Z 5));
       [|destruct (num_ge x (of_Z 3))]]|];
    cbn [award note snd fst app length Nat.eqb cs_reason]; reflexivity.
Qed.

(** X1. calculateScore returns one reason or two: first the one of the
    sector rule, then at most one of the turnover rule, which is missing
    exactly when there is a turnover below 3 (or NaN); so the list is never
    empty, and the fallback reason for an empty list is never given. *)
Theorem reasons_are_one_or_two (r : ScoreInput) :
  exists first rest,
    cs_reason (calculateScore r) = first :: rest
    /\ first = match in_sector_pattern r with
               | Some PatternA => js "板块分时：水下拉水上 +30"
               | Some PatternB => js "板块分时：波动三角收窄 +20"
               | None => js "板块分时信息缺失"
               end
    /\ (length rest <= 1)%nat
    /\ (rest = [] <->
        exists x, in_turnover r = Some x /\ num_ge x (of_Z 3) = false)
    /\ ~ In (js "信息不足/需补字段") (cs_reason (calculateScore r)).
Proof.
  destruct r as [sp t]. rewrite reasons_split.
  cbn [in_sector_pattern in_turnover].
  exists (sector_reason sp), (turnover_reasons t).
  split; [reflexivity|]. split; [reflexivity|]. split; [|split].
  - unfold turnover_reasons.
    destruct t as [x|];
      [destruct (num_ge x (of_Z 8)); [|destruct (num_ge x (of_Z 5));
         [|destruct (num_ge x (of_Z 3))]]|];
      cbn; lia.
  - unfold turnover_reasons. split.
    + intros H. destruct t as [x|]; [|discriminate H].
      exists x. split; [reflexivity|].
      destruct (num_ge x (of_Z 8)); [discriminate H|].
      destruct (num_ge x (of_Z 5)); [discriminate H|].
      destruct (num_ge x (of_Z 3)); [discriminate H | reflexivity].
    + intros (x & -> & Hx).
      pose proof (num_ge_8_5 x) as H85. pose proof (num_ge_5_3 x) as H53.
      destruct (num_ge x (of_Z 5)); [specialize (H53 eq_refl); congruence|].
      destruct (num_ge x (of_Z 8)); [specialize (H85 eq_refl); congruence|].
      rewrite Hx. reflexivity.
  - intros [E|Hin].
    + destruct sp as [[|]|]; vm_compute in E; discriminate E.
    + assert (Hhead : forall s, In s (turnover_reasons t) ->
                hd 0%N s = 25442%N).
      { unfold turnover_reasons. intros s Hs.
        destruct t as [x|];
          [destruct (num_ge x (of_Z 8)); [|destruct (num_ge x (of_Z 5));
             [|destruct (num_ge x (of_Z 3))]]|];
          cbn [In] in Hs; try contradiction;
          destruct Hs as [<-|[]]; vm_compute; reflexivity. }
      apply Hhead in Hin. vm_compute in Hin. discriminate Hin.
Qed.

End ScoringMore.

(* ================================================================== *)
(** * White space *)
(* ================================================================== *)

Lemma trimStart_split s :
  exists w, s = w ++ trimStart s /\ forallb is_ws w = true.
Proof.
  induction s as [|c s (w & Hs & Hw)]; [exists []; auto|].
  cbn [trimStart]. destruct (is_ws c) eqn:C.
  - exists (c :: w). cbn. rewrite C, Hw. split; [f_equal; exact Hs | reflexivity].
  - exists []. auto.
Qed.

Lemma trimStart_clean s : starts_clean (trimStart s) = true.
Proof.
  induction s as [|c s IH]; [reflexivity|]. cbn [trimStart].
  destruct (is_ws c) eqn:C; [exact IH|]. cbn. rewrite C. reflexivity.
Qed.

Lemma trimStart_fixed s : starts_clean s = true -> trimStart s = s.
Proof.
  destruct s as [|c s]; [reflexivity|]. cbn.
  destruct (is_ws c); [discriminate | reflexivity].
Qed.

Lemma trimStart_ws w s : forallb is_ws w = true -> trimStart (w ++ s) = trimStart s.
Proof.
  induction w as [|c w IH]; [reflexivity|]. cbn. intros H.
  apply andb_prop in H as [Hc Hw]. rewrite Hc. exact (IH Hw).
Qed.

Lemma trimStart_app s t :
  trimStart s <> [] -> trimStart (s ++ t) = trimStart s ++ t.
Proof.
  induction s as [|c s IH]; [cbn; congruence|]. cbn.
  destruct (is_ws c); [exact IH | reflexivity].
Qed.

Lemma trimStart_all_ws s : forallb is_ws s = true -> trimStart s = [].
Proof.
  intros H. rewrite <- (app_nil_r s). rewrite (trimStart_ws _ _ H). reflexivity.
Qed.

Lemma trim_clean s :
  starts_clean (trim s) = true /\ starts_clean (rev (trim s)) = true.
Proof.
  unfold trim, trimEnd. split.
  - destruct (trimStart_split (rev (trimStart s))) as (w & Hs & _).
    apply (f_equal (@rev unit16)) in Hs. rewrite rev_involutive, rev_app_distr in Hs.
    pose proof (trimStart_clean s) as C. rewrite Hs in C.
    destruct (rev (trimStart (rev (trimStart s)))) eqn:E; [reflexivity|].
    exact C.
  - rewrite rev_involutive. apply trimStart_clean.
Qed.

(** Trimming a trimmed string changes nothing. *)
Lemma trim_idempotent s : trim (trim s) = trim s.
Proof.
  destruct (trim_clean s) as [H1 H2].
  unfold trim at 1. rewrite (trimStart_fixed _ H1).
  unfold trimEnd. rewrite (trimStart_fixed _ H2). apply rev_involutive.
Qed.

Lemma forallb_rev (p : unit16 -> bool) s :
  forallb p s = true -> forallb p (rev s) = true.
Proof.
  rewrite !forallb_forall. intros H c Hc. apply H, in_rev. exact Hc.
Qed.

(** White space around a text does not reach [trim]'s result. *)
Lemma trim_padding pre s post :
  forallb is_ws pre = true -> forallb is_ws post = true ->
  trim (pre ++ s ++ post) = trim s.
Proof.
  intros Hpre Hpost. unfold trim. rewrite (trimStart_ws _ _ Hpre).
  destruct (trimStart s) as [|c u] eqn:E.
  - destruct (trimStart_split s) as (w & Hs & Hw). rewrite E, app_nil_r in Hs.
    subst w. rewrite trimStart_all_ws; [reflexivity|].
    rewrite forallb_app, Hw, Hpost. reflexivity.
  - rewrite trimStart_app by (rewrite E; discriminate). rewrite E.
    unfold trimEnd. rewrite rev_app_distr.
    rewrite (trimStart_ws _ _ (forallb_rev _ _ Hpost)). reflexivity.
Qed.

(* ================================================================== *)
(** * More of the parser *)
(* ================================================================== *)

(** [bind_open H] opens the first bind of [H : ... = Ok _]. *)
Ltac bind_open H :=
  let a := fresh "v" in
  let E := fresh "E" in
  apply bind_Ok in H; destruct H as (a & E & H); cbv beta zeta in H.

Section ParserMore.
Context {host : Host}.

(** [open_record H] opens [H : normalizeRecord raw dd = Ok r] into the
    steps of normalizeRecord. *)
Ltac open_record H :=
  unfold normalizeRecord in H; cbv zeta in H; repeat bind_open H;
  injection H as <-;
  cbn [date code name sector sector_pattern turnover chg amount debt_ratio].

Lemma normalizeRecord_code raw dd r :
  normalizeRecord raw dd = Ok r ->
  exists v, get raw (js "code") = Ok v /\ normalizeCode v = Ok (code r).
Proof. intros H. open_record H. eauto. Qed.

Lemma normalizeRecord_name raw dd r :
  normalizeRecord raw dd = Ok r ->
  exists v, get raw (js "name") = Ok v /\ call_trim (or_empty v) = Ok (name r).
Proof. intros H. open_record H. eauto. Qed.

Lemma normalizeRecord_sector raw dd r :
  normalizeRecord raw dd = Ok r ->
  exists v,
    get raw (js "sector") = Ok v
    /\ sector r = match v with
                  | VString s =>
                    map VString
                        (filter nonempty
                                (map trim (split_on (in_class (js ",，、")) s)))
                  | VArray items => items
                  | _ => []
                  end.
Proof. intros H. open_record H. eauto. Qed.

Lemma normalizeRecord_date raw dd r :
  normalizeRecord raw dd = Ok r ->
  exists v,
    get raw (js "date") = Ok v
    /\ date r = if truthy v then v
                else match dd with
                     | Some d => if nonempty d then VString d
                                 else VString currentDate
                     | None => VString currentDate
                     end.
Proof. intros H. open_record H. eauto. Qed.

Lemma normalizeRecord_numbers raw dd r :
  normalizeRecord raw dd = Ok r ->
  exists vt vg va vb astr,
    get raw (js "turnover") = Ok vt /\ percentField vt = Ok (turnover r)
    /\ get raw (js "chg") = Ok vg /\ percentField vg = Ok (chg r)
    /\ get raw (js "amount") = Ok va /\ ToString (or_empty va) = Ok astr
    /\ amount r = or_null (parseFloat (remove_all (in_class (js "亿万,")) astr))
    /\ get raw (js "debt_ratio") = Ok vb /\ percentField vb = Ok (debt_ratio r).
Proof. intros H. open_record H. do 5 eexists. repeat split; eassumption. Qed.

Lemma normalizeRecord_pattern raw dd r :
  normalizeRecord raw dd = Ok r ->
  exists v,
    get raw (js "sector_pattern") = Ok v
    /\ parseSectorPattern v = Ok (sector_pattern r).
Proof. intros H. open_record H. eauto. Qed.

Lemma normalizeCode_shape v c :
  normalizeCode v = Ok c ->
  c = [] \/ ((6 <= length c)%nat /\ forallb is_digit c = true).
Proof.
  unfold normalizeCode. destruct (negb (truthy v)).
  - intros [= <-]. left. reflexivity.
  - intros H. bind_open H. injection H as <-. right.
    rewrite remove_non_digits. unfold padStart0. split.
    + rewrite length_app, repeat_length. unfold unit16 in *. lia.
    + rewrite forallb_app. apply andb_true_intro. split.
      * apply forallb_forall. intros x Hx. apply repeat_spec in Hx. subst x.
        reflexivity.
      * apply forallb_forall. intros x Hx. apply filter_In in Hx. tauto.
Qed.

(** X4. The code of every record that parseSignalText returns is empty or
    made of digits only, six of them at least. *)
Theorem code_is_empty_or_digits text dd rs r :
  parseSignalText text dd = Ok rs ->
  In r rs ->
  code r = [] \/ ((6 <= length (code r))%nat /\ forallb is_digit (code r) = true).
Proof.
  intros H Hin.
  assert (Hall : Forall (fun r => code r = [] \/
                   ((6 <= length (code r))%nat
                    /\ forallb is_digit (code r) = true)) rs).
  { eapply parseSignalText_Forall; [|exact H]. intros raw r0 Hr.
    apply normalizeRecord_code in Hr as (v & _ & Hc).
    exact (normalizeCode_shape _ Hc). }
  rewrite Forall_forall in Hall. exact (Hall r Hin).
Qed.

Lemma or_null_nonzero y x :
  or_null y = Some x -> isNaN x = false /\ num_truthy x = true.
Proof.
  unfold or_null. destruct (num_truthy y) eqn:T; [|discriminate].
  intros [= <-]. split; [|exact T]. destruct y; try reflexivity; discriminate.
Qed.

(** X5. The turnover, change, amount and debt ratio of every record that
    parseSignalText returns are absent or numbers that are neither NaN nor
    zero. *)
Theorem numeric_fields_are_null_or_nonzero text dd rs r x :
  parseSignalText text dd = Ok rs ->
  In r rs ->
  In (Some x) [turnover r; chg r; amount r; debt_ratio r] ->
  isNaN x = false /\ num_truthy x = true.
Proof.
  intros H Hin Hx.
  assert (Hall : Forall (fun r => forall x,
                   In (Some x) [turnover r; chg r; amount r; debt_ratio r] ->
                   isNaN x = false /\ num_truthy x = true) rs).
  { eapply parseSignalText_Forall; [|exact H]. intros raw r0 Hr x0 Hx0.
    apply normalizeRecord_numbers in Hr
      as (vt & vg & va & vb & astr & _ & Ht & _ & Hg & _ & _ & Ha & _ & Hb).
    destruct Hx0 as [E|[E|[E|[E|[]]]]].
    - rewrite E in Ht. exact (percentField_nonzero _ Ht).
    - rewrite E in Hg. exact (percentField_nonzero _ Hg).
    - rewrite E in Ha. symmetry in Ha. exact (or_null_nonzero _ Ha).
    - rewrite E in Hb. exact (percentField_nonzero _ Hb). }
  rewrite Forall_forall in Hall. exact (Hall r Hin x Hx).
Qed.

(** X6. The name of every record that parseSignalText returns is trimmed:
    it neither starts nor ends with white space. *)
Theorem name_is_trimmed text dd rs r :
  parseSignalText text dd = Ok rs ->
  In r rs ->
  trim (name r) = name r
  /\ starts_clean (name r) = true
  /\ starts_clean (rev (name r)) = true.
Proof.
  intros H Hin.
  assert (Hall : Forall (fun r => exists s, name r = trim s) rs).
  { eapply parseSignalText_Forall; [|exact H]. intros raw r0 Hr.
    apply normalizeRecord_name in Hr as (v & _ & Hn).
    unfold call_trim in Hn. destruct (or_empty v); try discriminate.
    injection Hn as <-. eauto. }
  rewrite Forall_forall in Hall. destruct (Hall r Hin) as [s ->].
  split; [apply trim_idempotent | apply trim_clean].
Qed.

(** X7. When the text does not start with a bracket, or when the JSON
    strategy throws, every record returned has a code or a name. *)
Theorem text_records_are_identified text dd rs r :
  startsWith (trim text) (js "[") = false
  \/ (exists e, jsonPath (trim text) dd = Throw e) ->
  parseSignalText text dd = Ok rs ->
  In r rs ->
  code r <> [] \/ name r <> [].
Proof.
  intros Hpath H Hin.
  assert (Ht : textPath (trim text) dd = Ok rs).
  { unfold parseSignalText in H. destruct Hpath as [Hs|[e He]].
    - rewrite Hs in H. exact H.
    - rewrite He in H. cbn in H. destruct (startsWith _ _); exact H. }
  pose proof (textPath_keeps_identified _ _ Ht) as Hall.
  rewrite Forall_forall in Hall. exact (Hall r Hin).
Qed.



End ParserMore.

Section ParserRows.
Context {host : Host}.

(** X13. White space before and after the text changes nothing in what
    parseSignalText returns. *)
Theorem surrounding_space_is_ignored pre text post dd :
  forallb is_ws pre = true ->
  forallb is_ws post = true ->
  parseSignalText (pre ++ text ++ post) dd = parseSignalText text dd.
Proof.
  intros Hpre Hpost. unfold parseSignalText.
  rewrite trim_padding by assumption. reflexivity.
Qed.

(** X12. A property of the raw row under a key that normalizeRecord does
    not read (any key but date, code, name, sector, sector_pattern,
    turnover, chg, amount and debt_ratio) changes nothing in the record:
    no score, reason, id or trigger time of the input reaches it. *)
Theorem unread_keys_are_ignored raw k v dd :
  existsb (str_eqb k) read_keys = false ->
  normalizeRecord (VObject (assign raw k v)) dd = normalizeRecord (VObject raw) dd.
Proof.
  intros H. unfold read_keys in H. cbn [existsb] in H.
  repeat (apply orb_false_elim in H as [? H]).
  unfold normalizeRecord, get.
  rewrite !lookup_assign_other by assumption. reflexivity.
Qed.

Lemma take_drop_while (p : unit16 -> bool) s :
  s = take_while p s ++ drop_while p s /\ forallb p (take_while p s) = true.
Proof.
  induction s as [|c s [IH1 IH2]]; [split; reflexivity|]. cbn.
  destruct (p c) eqn:C; cbn; [|split; reflexivity].
  rewrite C, IH2. split; [f_equal; exact IH1 | reflexivity].
Qed.

Lemma drop_while_nil (p : unit16 -> bool) s :
  drop_while p s = [] -> forallb p s = true.
Proof.
  intros H. destruct (take_drop_while p s) as [E F].
  rewrite H, app_nil_r in E. rewrite E. exact F.
Qed.

Lemma label_value_sound r v :
  label_value r = Some v ->
  exists w, r = w ++ v /\ forallb is_ws w = true
            /\ v <> [] /\ existsb is_line_terminator v = false.
Proof.
  unfold label_value. destruct (drop_while is_ws r) as [|c u] eqn:D.
  - destruct (rev r) as [|last rest] eqn:R; [discriminate|].
    destruct (is_line_terminator last) eqn:L; [discriminate|].
    intros [= <-]. exists (rev rest).
    apply (f_equal (@rev unit16)) in R. rewrite rev_involutive in R. cbn in R.
    split; [exact R|]. split; [|split; [discriminate | cbn; rewrite L; reflexivity]].
    pose proof (drop_while_nil _ _ D) as W. rewrite R, forallb_app in W.
    apply andb_prop in W. tauto.
  - destruct (existsb is_line_terminator (c :: u)) eqn:L; [discriminate|].
    intros [= <-]. exists (take_while is_ws r).
    destruct (take_drop_while is_ws r) as [E F]. rewrite D in E.
    split; [exact E|]. split; [exact F|]. split; [discriminate | exact L].
Qed.

Lemma match_label_sound s :
  forall pre l v,
    match_label pre s = Some (l, v) ->
    existsb is_line_terminator pre = false ->
    exists c w,
      rev pre ++ s = l ++ c :: w ++ v
      /\ l <> [] /\ existsb is_line_terminator l = false
      /\ in_class (js "：:") c = true
      /\ forallb is_ws w = true
      /\ v <> [] /\ existsb is_line_terminator v = false.
Proof.
  induction s as [|c r IH]; cbn [match_label]; intros pre l v H Hpre;
    [discriminate|].
  destruct (if in_class (js "：:") c && nonempty pre then label_value r else None)
    as [v0|] eqn:Here.
  - injection H as <- <-.
    destruct (in_class (js "：:") c) eqn:C; [|discriminate].
    destruct pre as [|p0 pre']; [discriminate|]. cbn [andb nonempty] in Here.
    destruct (label_value_sound _ Here) as (w & -> & Hw & Hv & Hl).
    exists c, w. repeat split; auto.
    + intros E. apply (f_equal (@length unit16)) in E.
      rewrite length_rev in E. discriminate E.
    + destruct (existsb is_line_terminator (rev (p0 :: pre'))) eqn:X;
        [|reflexivity].
      apply existsb_exists in X as (x & Hx & Lx). apply in_rev in Hx.
      rewrite <- Hpre. symmetry. apply existsb_exists. eauto.
  - destruct (is_line_terminator c) eqn:L; [discriminate|].
    destruct (IH _ _ _ H) as (c' & w & E & rest).
    + cbn. rewrite L. exact Hpre.
    + exists c', w. split; [|exact rest].
      cbn [rev] in E. rewrite <- app_assoc in E. exact E.
Qed.

(** X9. What the block path reads from a line: when the line matches, it
    is the label, a colon (ASCII or full width), white space and the value,
    in this order and with nothing else; the label and the value are not
    empty and hold no line terminator. *)
Theorem label_line_is_label_colon_value bline label v :
  match_label [] bline = Some (label, v) ->
  exists c w,
    bline = label ++ c :: w ++ v
    /\ label <> [] /\ existsb is_line_terminator label = false
    /\ in_class (js "：:") c = true
    /\ forallb is_ws w = true
    /\ v <> [] /\ existsb is_line_terminator v = false.
Proof.
  intros H. exact (match_label_sound _ _ H eq_refl).
Qed.

Lemma lookup_assign_same raw k v : lookup (assign raw k v) k = Some v.
Proof.
  unfold lookup. induction raw as [|[k0 v0] raw IH]; cbn.
  - assert (E : str_eqb k k = true) by (apply str_eqb_eq; reflexivity).
    rewrite E. reflexivity.
  - destruct (str_eqb k0 k) eqn:E; cbn [find fst]; rewrite E; [reflexivity|].
    exact IH.
Qed.

Lemma lookup_assign_inv raw k v k' v' :
  lookup (assign raw k v) k' = Some v' -> k = k' \/ lookup raw k' = Some v'.
Proof.
  destruct (str_eqb k k') eqn:E.
  - left. apply str_eqb_eq. exact E.
  - rewrite lookup_assign_other by exact E. auto.
Qed.

(** A key of a row built under headers is the key of one of them. *)
Lemma headerRaw_keys headers parts k v :
  lookup (headerRaw headers parts) k = Some v ->
  exists h, In h headers /\ mapHeaderToKey h = Some k.
Proof.
  unfold headerRaw.
  assert (H : forall hps raw,
            lookup (fold_left (fun raw hp =>
                      match mapHeaderToKey (fst hp) with
                      | Some key => assign raw key (VString (snd hp))
                      | None => raw
                      end) hps raw) k = Some v ->
            lookup raw k = Some v
            \/ exists hp, In hp hps /\ mapHeaderToKey (fst hp) = Some k).
  { induction hps as [|hp hps IH]; cbn [fold_left]; intros raw H; [auto|].
    destruct (IH _ H) as [Hraw|(hp' & Hin & Hk)].
    - destruct (mapHeaderToKey (fst hp)) as [key|] eqn:K; [|auto].
      apply lookup_assign_inv in Hraw as [->|Hraw]; [|auto].
      right. exists hp. split; [left; reflexivity | exact K].
    - right. exists hp'. split; [right; exact Hin | exact Hk]. }
  intros Hl. destruct (H _ _ Hl) as [Hnil|((h, p) & Hin & Hk)]; [discriminate|].
  exists h. split; [exact (in_combine_l _ _ _ _ Hin) | exact Hk].
Qed.

Lemma normalizeRecord_unidentified raw dd r :
  lookup raw (js "code") = None ->
  lookup raw (js "name") = None ->
  normalizeRecord (VObject raw) dd = Ok r ->
  keep r = false.
Proof.
  intros Hc Hn H.
  destruct (normalizeRecord_code _ _ H) as (vc & Gc & Nc).
  destruct (normalizeRecord_name _ _ H) as (vn & Gn & Nn).
  rewrite get_field in Gc, Gn. unfold field in Gc, Gn. rewrite Hc in Gc.
  rewrite Hn in Gn. injection Gc as <-. injection Gn as <-.
  cbn in Nc, Nn. injection Nc as Nc. injection Nn as Nn.
  unfold keep. rewrite <- Nc, <- Nn. reflexivity.
Qed.

Lemma tableRow_without_identity headers separator dd line :
  headers <> [] ->
  (forall h, In h headers ->
             mapHeaderToKey h <> Some (js "code")
             /\ mapHeaderToKey h <> Some (js "name")) ->
  tableRow headers separator dd line = Ok None.
Proof.
  intros Hne Hk. unfold tableRow.
  destruct (negb (nonempty (trim line))); [reflexivity|].
  destruct (_ && _ && _); [reflexivity|].
  destruct (_ <? 2)%nat; [reflexivity|].
  destruct headers as [|h0 hs]; [congruence|]. cbn [length Nat.ltb Nat.leb].
  set (raw := headerRaw (h0 :: hs) _).
  destruct (normalizeRecord_flat raw dd (headerRaw_flat _ _)) as [r Hr].
  rewrite Hr. cbn [bind].
  rewrite (@normalizeRecord_unidentified raw dd r); [reflexivity| | |exact Hr].
  - destruct (lookup raw (js "code")) as [v|] eqn:L; [|reflexivity].
    apply headerRaw_keys in L as (h & Hin & Hh). destruct (Hk h Hin). congruence.
  - destruct (lookup raw (js "name")) as [v|] eqn:L; [|reflexivity].
    apply headerRaw_keys in L as (h & Hin & Hh). destruct (Hk h Hin). congruence.
Qed.

Lemma pushEach_nothing {A} (row : A -> result (option SignalRecord)) items :
  (forall item, In item items -> row item = Ok None) ->
  forall records, pushEach row items records = Ok records.
Proof.
  induction items as [|item rest IH]; cbn; intros Hrow records; [reflexivity|].
  rewrite (Hrow item (or_introl eq_refl)). cbn [bind]. apply IH.
  intros it Hit. apply Hrow. right. exact Hit.
Qed.

(** X10. Under a header line of which no cell is a code or a name heading,
    the table path reads no record, whatever the rows hold. *)
Theorem header_without_identity_reads_nothing line0 rest dd :
  looksLikeHeader (toLowerCase line0) = true ->
  (forall cell,
      In cell (split_on (is_unit (detectSeparator (toLowerCase line0))) line0) ->
      mapHeaderToKey (toLowerCase (trim cell)) <> Some (js "code")
      /\ mapHeaderToKey (toLowerCase (trim cell)) <> Some (js "name")) ->
  tablePath (line0 :: rest) dd = Ok [].
Proof.
  intros Hh Hcells. unfold tablePath. rewrite Hh.
  apply pushEach_nothing. intros line _.
  apply tableRow_without_identity.
  - destruct (split_on _ line0) eqn:S; [|discriminate].
    destruct line0 as [|c l]; cbn in S; [discriminate|].
    destruct (is_unit _ c); [discriminate|].
    destruct (split_on _ l); discriminate.
  - intros h Hin. apply in_map_iff in Hin as (cell & <- & Hcell).
    exact (Hcells cell Hcell).
Qed.

End ParserRows.

Section ParserCells.
Context {host : Host}.

Lemma tableRow_headerless_inv separator dd line r :
  tableRow [] separator dd line = Ok (Some r) ->
  normalizeRecord
    (VObject (heuristicRaw (map trim (split_on (is_unit separator) (trim line)))))
    dd = Ok r.
Proof.
  unfold tableRow. intros H.
  destruct (negb (nonempty (trim line))); [discriminate|].
  destruct (_ && _ && _); [discriminate|].
  destruct (_ <? 2)%nat; [discriminate|].
  cbn [length Nat.ltb Nat.leb] in H. bind_open H.
  destruct (keep v); [|discriminate]. injection H as <-. exact E.
Qed.

Lemma heuristicRaw_fields parts :
  field (heuristicRaw parts) (js "code") = string_or_undefined (extractCode parts)
  /\ field (heuristicRaw parts) (js "name")
     = string_or_undefined (extractName parts)
  /\ field (heuristicRaw parts) (js "date") = VUndefined.
Proof.
  unfold heuristicRaw, field. split; [|split].
  - rewrite !lookup_assign_other by reflexivity.
    rewrite lookup_assign_same. reflexivity.
  - rewrite !lookup_assign_other by reflexivity.
    rewrite lookup_assign_same. reflexivity.
  - rewrite !lookup_assign_other by reflexivity. reflexivity.
Qed.

Lemma trimmed_cell (cells : list jsstring) p :
  In p (map trim cells) -> trim p = p.
Proof.
  intros H. apply in_map_iff in H as (c & <- & _). apply trim_idempotent.
Qed.

(** X11. A headerless row gives its record the first cell of exactly six
    digits as code and the first cell that starts with a letter or a CJK
    character, holds no percent sign and is at most 8 units long as name,
    each unchanged; without such a cell the field is empty. *)
Theorem headerless_code_and_name separator dd line r :
  tableRow [] separator dd line = Ok (Some r) ->
  let parts := map trim (split_on (is_unit separator) (trim line)) in
  code r = match extractCode parts with Some p => p | None => [] end
  /\ name r = match extractName parts with Some p => p | None => [] end.
Proof.
  intros H parts. apply tableRow_headerless_inv in H. fold parts in H.
  destruct (heuristicRaw_fields parts) as (Fc & Fn & _).
  destruct (normalizeRecord_code _ _ H) as (vc & Gc & Nc).
  destruct (normalizeRecord_name _ _ H) as (vn & Gn & Nn).
  rewrite get_field in Gc, Gn. injection Gc as <-. injection Gn as <-.
  rewrite Fc in Nc. rewrite Fn in Nn. split.
  - destruct (extractCode parts) as [p|] eqn:X; cbn [string_or_undefined] in Nc.
    + apply find_some in X as [Hin Hsix]. unfold six_digits in Hsix.
      rewrite (trimmed_cell _ _ Hin) in Hsix.
      apply andb_prop in Hsix as [Hlen Hd]. apply Nat.eqb_eq in Hlen.
      rewrite normalizeCode_string in Nc. injection Nc as <-.
      destruct p as [|c p']; [discriminate Hlen|]. cbn [nonempty].
      rewrite (filter_all _ _ Hd). unfold padStart0.
      unfold unit16 in *. rewrite Hlen. reflexivity.
    + cbn in Nc. injection Nc as <-. reflexivity.
  - destruct (extractName parts) as [p|] eqn:X; cbn [string_or_undefined] in Nn.
    + apply find_some in X as [Hin Hp].
      pose proof (trimmed_cell _ _ Hin) as Ht. rewrite Ht in Hp.
      destruct p as [|c p']; [discriminate Hp|].
      cbn in Nn. injection Nn as <-. exact Ht.
    + cbn in Nn. injection Nn as <-. reflexivity.
Qed.

(** X15. A headerless row never carries a date of its own: its record has
    the default date of the call when there is one and it is not empty, and
    the current date otherwise. *)
Theorem headerless_row_gets_default_date separator dd line r :
  tableRow [] separator dd line = Ok (Some r) ->
  date r = VString (match dd with
                    | Some d => if nonempty d then d else currentDate
                    | None => currentDate
                    end).
Proof.
  intros H. apply tableRow_headerless_inv in H.
  destruct (normalizeRecord_date _ _ H) as (v & G & D).
  rewrite get_field in G. injection G as <-.
  rewrite (proj2 (proj2 (heuristicRaw_fields _))) in D. cbn [truthy] in D.
  rewrite D. destruct dd as [d|]; [destruct (nonempty d)|]; reflexivity.
Qed.

Lemma heuristicRaw_unset parts k :
  existsb (fun key => str_eqb key k)
          [js "code"; js "name"; js "sector"; js "turnover"; js "chg"]
  = false ->
  field (heuristicRaw parts) k = VUndefined.
Proof.
  intros Hk. cbn [existsb] in Hk.
  repeat (apply orb_false_elim in Hk as [? Hk]).
  unfold heuristicRaw, field.
  rewrite !lookup_assign_other by assumption.
  reflexivity.
Qed.

(** X23. A headerless row gives its record a code, a name, sectors, a
    turnover and a change at most: the record has no sector pattern, no
    amount and no debt ratio, so its score is what the turnover alone
    earns, 30 at most. *)
Theorem headerless_row_scores_by_turnover_only separator dd line r :
  tableRow [] separator dd line = Ok (Some r) ->
  sector_pattern r = None /\ amount r = None /\ debt_ratio r = None
  /\ score r = turnover_bonus (turnover r)
  /\ (0 <= score r <= 30)%Z.
Proof.
  intros H. apply tableRow_headerless_inv in H.
  destruct (normalizeRecord_pattern _ _ H) as (vp & Gp & Pp).
  destruct (normalizeRecord_numbers _ _ H)
    as (vt & vg & va & vb & astr & _ & _ & _ & _ & Ga & Sa & Ha & Gb & Pb).
  destruct (normalizeRecord_recomputed _ _ H) as [Hs _].
  rewrite get_field in Gp, Ga, Gb.
  rewrite heuristicRaw_unset in Gp, Ga, Gb by reflexivity.
  injection Gp as <-. injection Ga as <-. injection Gb as <-.
  assert (Hp : sector_pattern r = None).
  { assert (X : parseSectorPattern VUndefined = Ok None)
      by (vm_compute; reflexivity).
    congruence. }
  assert (Hscore : score r = turnover_bonus (turnover r)).
  { rewrite Hs, Hp, score_split. reflexivity. }
  split; [exact Hp|].
  split; [cbn in Sa; injection Sa as <-; rewrite Ha; vm_compute; reflexivity|].
  split; [assert (X : percentField VUndefined = Ok None)
            by (vm_compute; reflexivity); congruence|].
  split; [exact Hscore|].
  rewrite Hscore. unfold turnover_bonus.
  destruct (turnover r) as [x|]; [|lia].
  destruct (num_ge x (of_Z 8)), (num_ge x (of_Z 5)), (num_ge x (of_Z 3)); lia.
Qed.

Lemma tableRow_Some_flat headers separator dd line r :
  tableRow headers separator dd line = Ok (Some r) ->
  exists raw, forallb flat_entry raw = true
              /\ normalizeRecord (VObject raw) dd = Ok r.
Proof.
  unfold tableRow. intros H.
  destruct (negb (nonempty (trim line))); [discriminate|].
  destruct (_ && _ && _); [discriminate|].
  destruct (_ <? 2)%nat; [discriminate|].
  bind_open H. destruct (keep v); [|discriminate]. injection H as <-.
  eexists. split; [|exact E].
  destruct (0 <? length headers)%nat;
    [apply headerRaw_flat | apply heuristicRaw_flat].
Qed.

Lemma blockRow_Some_flat dd block r :
  blockRow dd block = Ok (Some r) ->
  exists raw, forallb flat_entry raw = true
              /\ normalizeRecord (VObject raw) dd = Ok r.
Proof.
  unfold blockRow. intros H. destruct (0 <? _)%nat; [|discriminate].
  bind_open H. destruct (keep v); [|discriminate]. injection H as <-.
  eexists. split; [apply blockRaw_flat | exact E].
Qed.

Lemma textPath_Forall_flat (P : SignalRecord -> Prop) trimmed dd rs :
  (forall raw r, forallb flat_entry raw = true ->
                 normalizeRecord (VObject raw) dd = Ok r -> P r) ->
  textPath trimmed dd = Ok rs -> Forall P rs.
Proof.
  intros HP. unfold textPath.
  destruct (length _ =? 0)%nat; [intros [= <-]; constructor|].
  intros H. bind_open H.
  assert (Hv : Forall P v).
  { unfold tablePath in E. destruct (filter _ _) as [|line0 rest].
    - injection E as <-. constructor.
    - eapply pushEach_Forall; [|constructor|exact E].
      intros item r Hr. apply tableRow_Some_flat in Hr as (raw & Hf & Hn).
      eauto. }
  destruct (length v =? 0)%nat.
  - eapply pushEach_Forall; [|exact Hv|exact H].
    intros item r Hr. apply blockRow_Some_flat in Hr as (raw & Hf & Hn). eauto.
  - injection H as <-. exact Hv.
Qed.

Lemma split_on_pieces (p : unit16 -> bool) s :
  Forall (fun piece => existsb p piece = false) (split_on p s).
Proof.
  induction s as [|c s IH]; cbn; [repeat constructor|].
  destruct (p c) eqn:C; [constructor; [reflexivity | exact IH]|].
  destruct (split_on p s) as [|piece pieces]; [repeat constructor; cbn; rewrite C; reflexivity|].
  inversion IH as [|? ? H1 H2]; subst. constructor; [|exact H2].
  cbn. rewrite C, H1. reflexivity.
Qed.

Lemma sector_pieces_are_labels s :
  Forall sector_label
         (map VString
              (filter nonempty (map trim (split_on (in_class (js ",，、")) s)))).
Proof.
  apply Forall_forall. intros v Hv.
  apply in_map_iff in Hv as (t & <- & Ht).
  apply filter_In in Ht as [Ht Hne].
  apply in_map_iff in Ht as (piece & <- & Hp).
  pose proof (split_on_pieces (in_class (js ",，、")) s) as F.
  rewrite Forall_forall in F. specialize (F piece Hp).
  exists (trim piece). split; [reflexivity|]. split.
  - intros E. rewrite E in Hne. discriminate Hne.
  - split; [apply trim_idempotent | apply existsb_trim; exact F].
Qed.

(** X14. When the text does not start with a bracket, or when the JSON
    strategy throws, every sector of every record returned is a string
    that is not empty, is trimmed, and holds no comma, full-width comma or
    ideographic comma. *)
Theorem text_sectors_are_labels text dd rs r :
  startsWith (trim text) (js "[") = false
  \/ (exists e, jsonPath (trim text) dd = Throw e) ->
  parseSignalText text dd = Ok rs ->
  In r rs ->
  Forall sector_label (sector r).
Proof.
  intros Hpath H Hin.
  assert (Ht : textPath (trim text) dd = Ok rs).
  { unfold parseSignalText in H. destruct Hpath as [Hs|[e He]].
    - rewrite Hs in H. exact H.
    - rewrite He in H. cbn in H. destruct (startsWith _ _); exact H. }
  assert (Hall : Forall (fun r => Forall sector_label (sector r)) rs).
  { eapply textPath_Forall_flat; [|exact Ht]. intros raw r0 Hf Hn.
    destruct (normalizeRecord_sector _ _ Hn) as (v & G & S).
    rewrite get_field in G. injection G as <-. rewrite S.
    pose proof (field_flat raw (js "sector") Hf) as Fl.
    destruct (field raw (js "sector")); try discriminate Fl;
      try constructor.
    apply sector_pieces_are_labels. }
  rewrite Forall_forall in Hall. exact (Hall r Hin).
Qed.

End ParserCells.

(* ================================================================== *)
(** * codeToTsCode *)
(* ================================================================== *)

Lemma padStart0_length s : length (padStart0 6 s) = Nat.max 6 (length s).
Proof.
  unfold padStart0. rewrite length_app, repeat_length. unfold unit16 in *. lia.
Qed.

Lemma padStart0_long s : (6 <= length s)%nat -> padStart0 6 s = s.
Proof.
  intros H. unfold padStart0.
  replace (6 - length s)%nat with 0%nat by (unfold unit16 in *; lia).
  reflexivity.
Qed.

Lemma padStart0_digits s :
  forallb is_digit s = true -> forallb is_digit (padStart0 6 s) = true.
Proof.
  intros H. unfold padStart0. unfold unit16 in *.
  rewrite forallb_app, H, andb_true_r.
  apply forallb_forall. intros x Hx. apply repeat_spec in Hx. subst x.
  reflexivity.
Qed.

Lemma filter_digits_digits s : forallb is_digit (filter is_digit s) = true.
Proof. apply forallb_forall. intros x Hx. apply filter_In in Hx. tauto. Qed.

(** X17. codeToTsCode reads the digits of its argument only. With more
    than six digits it returns the empty string; otherwise it returns nine
    units: the digits padded with zeros to six, a dot, and SH, SZ or BJ. An
    argument without any digit, the empty string among them, gives
    000000.SZ. *)
Theorem codeToTsCode_shape (code : jsstring) :
  codeToTsCode code = codeToTsCode (filter is_digit code)
  /\ ((6 < length (filter is_digit code))%nat -> codeToTsCode code = [])
  /\ ((length (filter is_digit code) <= 6)%nat ->
      exists market,
        In market [js "SH"; js "SZ"; js "BJ"]
        /\ codeToTsCode code
           = padStart0 6 (filter is_digit code) ++ js "." ++ market
        /\ length (codeToTsCode code) = 9%nat)
  /\ (filter is_digit code = [] -> codeToTsCode code = js "000000.SZ").
Proof.
  unfold codeToTsCode. rewrite !remove_non_digits.
  rewrite (filter_all _ _ (filter_digits_digits code)).
  split; [reflexivity|].
  set (digits := filter is_digit code).
  pose proof (padStart0_length digits) as L.
  split; [|split].
  - intros H. rewrite L.
    replace (Nat.max 6 (length digits)) with (length digits) by lia.
    destruct (length digits =? 6)%nat eqn:E; [|reflexivity].
    apply Nat.eqb_eq in E. lia.
  - intros H. rewrite L.
    replace (Nat.max 6 (length digits)) with 6%nat by lia.
    cbn [Nat.eqb negb].
    assert (Hlen : forall market : jsstring,
               length market = 2%nat ->
               length (padStart0 6 digits ++ js "." ++ market) = 9%nat).
    { intros market Hm. rewrite !length_app, L, Hm.
      replace (Nat.max 6 (length digits)) with 6%nat by lia. reflexivity. }
    repeat match goal with
           | |- context [if ?b then _ else _] => destruct b
           end;
      [exists (js "SH") | exists (js "SZ") | exists (js "SH")
       | exists (js "BJ") | exists (js "SZ")];
      (split; [cbn; auto|]); (split; [reflexivity|]);
      apply Hlen; reflexivity.
  - intros ->. reflexivity.
Qed.

(** X18. codeToTsCode and normalizeCode agree on what a code is: the code
    that normalizeCode makes of a string and the string itself have the
    same provider code. *)
Theorem codeToTsCode_of_normalized {host : Host} (s c : jsstring) :
  normalizeCode (VString s) = Ok c ->
  codeToTsCode c = codeToTsCode s.
Proof.
  rewrite normalizeCode_string. intros [= <-].
  destruct s as [|x s']; [reflexivity|]. cbn [nonempty].
  set (s := x :: s').
  unfold codeToTsCode. rewrite !remove_non_digits.
  rewrite (filter_all _ _ (padStart0_digits _ (filter_digits_digits s))).
  rewrite (padStart0_long (padStart0 6 (filter is_digit s)))
    by (rewrite padStart0_length; lia).
  reflexivity.
Qed.

(* ================================================================== *)
(** * rowToRecord *)
(* ================================================================== *)

Lemma formNumber_not_NaN s x : formNumber s = Some x -> isNaN x = false.
Proof.
  unfold formNumber. destruct (nonempty s); [|discriminate].
  destruct (isNaN (parseFloat s)) eqn:E; [discriminate|].
  intros [= <-]. exact E.
Qed.

(** X16. A record that rowToRecord builds from a row of the form has a
    name that is not empty and is trimmed, a code of digits only, six at
    least, at least one sector, and numeric fields that are absent or not
    NaN. *)
Theorem rowToRecord_record_is_sound row day r :
  rowToRecord row day = Some r ->
  name r <> [] /\ trim (name r) = name r
  /\ (6 <= length (code r))%nat /\ forallb is_digit (code r) = true
  /\ sector r <> []
  /\ (forall x, In (Some x) [turnover r; chg r; amount r; debt_ratio r] ->
                isNaN x = false).
Proof.
  unfold rowToRecord. intros H.
  destruct (_ && _); [discriminate|]. cbv zeta in H.
  destruct (negb (nonempty (padStart0 6 _)) || negb (nonempty (trim (row_name row))))
    eqn:E; [discriminate|].
  injection H as <-.
  cbn [name code sector turnover chg amount debt_ratio].
  apply orb_false_elim in E as [_ En]. apply negb_false_iff in En.
  split; [intros X; rewrite X in En; discriminate En|].
  split; [apply trim_idempotent|].
  split; [rewrite padStart0_length; lia|].
  split; [rewrite remove_non_digits;
          apply padStart0_digits, filter_digits_digits|].
  split.
  - destruct (filter nonempty _) as [|x xs]; cbn; discriminate.
  - intros x [X|[X|[X|[X|[]]]]]; exact (formNumber_not_NaN _ X).
Qed.

(* ================================================================== *)
(** * getDailySummary *)
(* ================================================================== *)

Lemma insertByScore_perm r l : Permutation (r :: l) (insertByScore r l).
Proof.
  induction l as [|x l IH]; cbn; [reflexivity|].
  destruct (score x <=? score r)%Z; [reflexivity|].
  rewrite perm_swap. constructor. exact IH.
Qed.

Lemma sortByScore_perm records : Permutation records (sortByScore records).
Proof.
  induction records as [|r l IH]; cbn; [constructor|].
  rewrite <- insertByScore_perm. constructor. exact IH.
Qed.

Lemma insertByScore_sorted r l :
  StronglySorted falling l -> StronglySorted falling (insertByScore r l).
Proof.
  induction l as [|x l IH]; cbn; intros S; [repeat constructor|].
  inversion S as [|? ? S' F]; subst.
  destruct (score x <=? score r)%Z eqn:E.
  - apply Z.leb_le in E. constructor; [exact S|].
    constructor; [exact E|].
    eapply Forall_impl; [|exact F]. unfold falling. intros a Ha. lia.
  - apply Z.leb_gt in E. constructor; [exact (IH S')|].
    apply (Permutation_Forall (insertByScore_perm r l)).
    constructor; [unfold falling; lia | exact F].
Qed.

Lemma sortByScore_sorted records : StronglySorted falling (sortByScore records).
Proof.
  induction records as [|r l IH]; cbn; [constructor|].
  apply insertByScore_sorted. exact IH.
Qed.

Lemma insertByScore_same_score k r l :
  filter (fun a => (score a =? k)%Z) (insertByScore r l)
  = filter (fun a => (score a =? k)%Z) (r :: l).
Proof.
  induction l as [|x l IH]; [reflexivity|]. cbn [insertByScore].
  destruct (score x <=? score r)%Z eqn:E; [reflexivity|].
  apply Z.leb_gt in E. cbn [filter] in *. rewrite IH.
  destruct (score r =? k)%Z eqn:R, (score x =? k)%Z eqn:X; try reflexivity.
  apply Z.eqb_eq in R, X. lia.
Qed.

Lemma sortByScore_stable k records :
  filter (fun a => (score a =? k)%Z) (sortByScore records)
  = filter (fun a => (score a =? k)%Z) records.
Proof.
  induction records as [|r l IH]; [reflexivity|]. cbn [sortByScore fold_right].
  fold (sortByScore l). rewrite insertByScore_same_score. cbn [filter].
  rewrite IH. reflexivity.
Qed.

Lemma summary_counts_add_up (records : list SignalRecord) :
  (length (filter (fun r => (75 <=? score r)%Z) records)
   + length (filter (fun r => (50 <=? score r)%Z && (score r <? 75)%Z) records)
   + length (filter (fun r => (score r <? 50)%Z) records)
   = length records)%nat.
Proof.
  induction records as [|r l IH]; [reflexivity|]. cbn [filter length].
  destruct (75 <=? score r)%Z eqn:A, (50 <=? score r)%Z eqn:B,
    (score r <? 75)%Z eqn:C, (score r <? 50)%Z eqn:D;
    cbn [andb length];
    try (apply Z.leb_le in A); try (apply Z.leb_gt in A);
    try (apply Z.leb_le in B); try (apply Z.leb_gt in B);
    try (apply Z.ltb_lt in C); try (apply Z.ltb_ge in C);
    try (apply Z.ltb_lt in D); try (apply Z.ltb_ge in D);
    lia.
Qed.

(** X19. The three counts of getDailySummary add up to the total: every
    record is high priority (75 and more), alternative (50 to 74) or
    eliminated (below 50), and none is counted twice. The records of the
    summary are those given, by falling score, records of one score in the
    order they came in. *)
Theorem daily_summary_counts_and_order {host : Host} (records : list SignalRecord) :
  let summary := getDailySummary records in
  (highPriority summary + alternative summary + eliminated summary
   = totalCount summary)%nat
  /\ Permutation records (ds_records summary)
  /\ StronglySorted falling (ds_records summary)
  /\ (forall k,
         filter (fun a => (score a =? k)%Z) (ds_records summary)
         = filter (fun a => (score a =? k)%Z) records).
Proof.
  cbv zeta. unfold getDailySummary.
  cbn [highPriority alternative eliminated totalCount ds_records].
  split; [|split; [apply sortByScore_perm|split;
                   [apply sortByScore_sorted|intros k; apply sortByScore_stable]]].
  apply summary_counts_add_up.
Qed.

Section SummaryOfParsed.
Context {host : Host}.

Lemma parsed_score_range text dd rs :
  parseSignalText text dd = Ok rs ->
  Forall (fun r => (0 <= score r <= 60)%Z) rs.
Proof.
  intros H. eapply parseSignalText_Forall; [|exact H].
  intros raw r Hr. apply normalizeRecord_recomputed in Hr as [Hs _].
  rewrite Hs, calculateScore_score.
  match goal with
  | |- context [rule_total ?i] => pose proof (rule_total_range i) as R
  end.
  unfold clamp. lia.
Qed.

(** X20. In the summary of what parseSignalText returns no record is high
    priority: the parser scores 60 at most, and the summary asks for 75.
    Every record is alternative or eliminated. *)
Theorem parsed_records_are_never_high_priority text dd rs :
  parseSignalText text dd = Ok rs ->
  highPriority (getDailySummary rs) = 0%nat
  /\ (alternative (getDailySummary rs) + eliminated (getDailySummary rs)
      = length rs)%nat.
Proof.
  intros H. pose proof (parsed_score_range _ _ H) as R.
  pose proof (summary_counts_add_up rs) as T.
  unfold getDailySummary. cbn [highPriority alternative eliminated].
  assert (Hhigh : length (filter (fun r => (75 <=? score r)%Z) rs) = 0%nat).
  { clear T H. induction R as [|r l Hr _ IH]; [reflexivity|]. cbn [filter].
    destruct (75 <=? score r)%Z eqn:A; [apply Z.leb_le in A; lia | exact IH]. }
  split; [exact Hhigh|]. rewrite Hhigh in T. exact T.
Qed.

End SummaryOfParsed.

(* ================================================================== *)
(** * exportToCSV, and reading its text back *)
(* ================================================================== *)

Lemma join_cons sep c cells :
  join sep (c :: cells)
  = c ++ match cells with [] => [] | _ :: _ => sep ++ join sep cells end.
Proof. destruct cells; cbn [join]; [rewrite app_nil_r|]; reflexivity. Qed.

Lemma split_on_first (p : unit16 -> bool) h c t :
  existsb p h = false -> p c = true ->
  split_on p (h ++ c :: t) = h :: split_on p t.
Proof.
  intros Hh Hc. induction h as [|x h IH]; cbn.
  - rewrite Hc. reflexivity.
  - cbn in Hh. apply orb_false_elim in Hh as [Hx Hh]. rewrite Hx, (IH Hh).
    reflexivity.
Qed.

(** Trimming a text that starts with a line [h] without white space at
    either end, followed by nothing or by a line feed. *)
Lemma trim_after_line h tail :
  h <> [] -> starts_clean h = true -> starts_clean (rev h) = true ->
  tail = [] \/ (exists t, tail = LF :: t) ->
  exists tail',
    trim (h ++ tail) = h ++ tail' /\ (tail' = [] \/ exists t, tail' = LF :: t).
Proof.
  intros Hne Hs He Ht. unfold trim.
  rewrite (trimStart_fixed (h ++ tail))
    by (destruct h; [congruence | exact Hs]).
  unfold trimEnd. rewrite rev_app_distr.
  destruct (trimStart_split (rev tail)) as (w & Hw & Hws).
  destruct (trimStart (rev tail)) as [|c u] eqn:E.
  - exists []. rewrite app_nil_r in *. rewrite Hw, (trimStart_ws _ _ Hws).
    rewrite (trimStart_fixed _ He), rev_involutive. auto.
  - exists (rev (c :: u)).
    rewrite trimStart_app by (rewrite E; discriminate).
    rewrite E, rev_app_distr, rev_involutive. split; [reflexivity|].
    right. apply (f_equal (@rev unit16)) in Hw.
    rewrite rev_involutive, rev_app_distr in Hw.
    destruct Ht as [->|[t ->]]; [discriminate E|].
    destruct (rev (c :: u)) as [|x xs] eqn:R.
    + apply (f_equal (@rev unit16)) in R. rewrite rev_involutive in R.
      discriminate R.
    + injection Hw as <- _. eauto.
Qed.

Section CsvReadBack.
Context {host : Host}.

Lemma exportToCSV_starts records csv :
  exportToCSV records = Ok csv ->
  exists tail,
    csv = csvHeaderLine ++ tail /\ (tail = [] \/ exists t, tail = LF :: t).
Proof.
  unfold exportToCSV. intros H. do 2 bind_open H.
  assert (Hcsv : csv = join (js "\n") (csvHeaderLine :: v0))
    by (unfold csvHeaderLine; congruence).
  rewrite Hcsv, join_cons.
  destruct v0 as [|l ls]; [exists []; auto|].
  eexists. split; [reflexivity|]. right.
  change (js "\n") with [LF]. cbn [app]. eauto.
Qed.

Lemma tableRow_headers_inv h0 hs separator dd line r :
  tableRow (h0 :: hs) separator dd line = Ok (Some r) ->
  normalizeRecord
    (VObject (headerRaw (h0 :: hs)
                        (map trim (split_on (is_unit separator) (trim line)))))
    dd = Ok r.
Proof.
  unfold tableRow. intros H.
  destruct (negb (nonempty (trim line))); [discriminate|].
  destruct (_ && _ && _); [discriminate|].
  destruct (_ <? 2)%nat; [discriminate|].
  cbn [length Nat.ltb Nat.leb] in H. bind_open H.
  destruct (keep v); [|discriminate]. injection H as <-. exact E.
Qed.

(** Of the eleven headings of the CSV file mapHeaderToKey knows five. *)
Lemma csv_heading_keys h k :
  In h csvHeaders -> mapHeaderToKey h = Some k ->
  In k [js "date"; js "code"; js "name"; js "sector"; js "sector_pattern"].
Proof.
  intros Hin Hk. rewrite mapHeaderToKey_settled in Hk.
  unfold csvHeaders in Hin. cbn [In] in Hin.
  repeat (destruct Hin as [<-|Hin];
          [vm_compute in Hk; first [discriminate Hk
                                   | injection Hk as <-; vm_compute; tauto]|]).
  destruct Hin.
Qed.

Lemma csv_row_has_no_numbers parts k :
  In k [js "turnover"; js "chg"; js "amount"; js "debt_ratio"] ->
  field (headerRaw csvHeaders parts) k = VUndefined.
Proof.
  intros Hk. unfold field.
  destruct (lookup (headerRaw csvHeaders parts) k) as [v|] eqn:L; [|reflexivity].
  apply headerRaw_keys in L as (h & Hin & Hh).
  pose proof (csv_heading_keys Hin Hh) as Hread.
  cbn [In] in Hk, Hread.
  repeat (destruct Hk as [<-|Hk];
          [vm_compute in Hread; intuition discriminate|]).
  destruct Hk.
Qed.

Lemma csv_table_has_no_numbers rest dd rs r :
  tablePath (csvHeaderLine :: rest) dd = Ok rs -> In r rs ->
  turnover r = None /\ chg r = None /\ amount r = None /\ debt_ratio r = None.
Proof.
  unfold tablePath. cbv zeta.
  assert (Hlow : toLowerCase csvHeaderLine = csvHeaderLine).
  { rewrite toLowerCase_plain by (vm_compute; reflexivity).
    vm_compute. reflexivity. }
  rewrite Hlow.
  replace (looksLikeHeader csvHeaderLine) with true by (vm_compute; reflexivity).
  replace (detectSeparator csvHeaderLine) with COMMA by (vm_compute; reflexivity).
  assert (Hheads : map (fun h => toLowerCase (trim h))
                       (split_on (is_unit COMMA) csvHeaderLine) = csvHeaders).
  { rewrite (map_ext (fun c => @toLowerCase host (trim c))
                     (fun c => @toLowerCase (settled host) (trim c)))
      by (intros c; apply settled_lower).
    vm_compute. reflexivity. }
  rewrite Hheads. intros H Hin.
  apply pushEach_In with (r := r) in H; [|exact Hin].
  destruct H as [Hold|(line & _ & Hrow)]; [destruct Hold|].
  unfold csvHeaders in Hrow at 1. apply tableRow_headers_inv in Hrow.
  fold csvHeaders in Hrow.
  set (parts := map trim _) in Hrow.
  destruct (normalizeRecord_numbers _ _ Hrow)
    as (vt & vg & va & vb & astr & Gt & Pt & Gg & Pg & Ga & Sa & Ha & Gb & Pb).
  rewrite get_field in Gt, Gg, Ga, Gb.
  rewrite csv_row_has_no_numbers in Gt by (cbn; auto).
  rewrite csv_row_has_no_numbers in Gg by (cbn; auto).
  rewrite csv_row_has_no_numbers in Ga by (cbn; auto).
  rewrite csv_row_has_no_numbers in Gb by (cbn; auto 6).
  injection Gt as <-. injection Gg as <-. injection Ga as <-.
  injection Gb as <-.
  cbn in Pt, Pg, Pb, Sa. injection Sa as <-.
  injection Pt as Pt. injection Pg as Pg. injection Pb as Pb.
  rewrite <- Pt, <- Pg, <- Pb, Ha. vm_compute. auto.
Qed.

(** X21. The text of exportToCSV starts with the line of its eleven
    headings, and parseSignalText takes that line for the header of a
    table. Of the headings mapHeaderToKey knows five: the four numeric
    columns are written under headings it does not know. So when the table
    strategy reads a record from the exported text, no record that
    parseSignalText returns has a turnover, a change, an amount or a debt
    ratio, whatever the exported records held. *)
Theorem exported_csv_is_read_back_without_numbers records csv dd rs r :
  exportToCSV records = Ok csv ->
  parseSignalText csv dd = Ok rs ->
  tablePath (textLines (trim csv)) dd <> Ok [] ->
  In r rs ->
  hd [] (textLines (trim csv)) = csvHeaderLine
  /\ turnover r = None /\ chg r = None /\ amount r = None
  /\ debt_ratio r = None.
Proof.
  intros Hcsv Hparse Htable Hin.
  destruct (exportToCSV_starts _ Hcsv) as (tail & -> & Htail).
  assert (Hne : csvHeaderLine <> []) by (vm_compute; discriminate).
  assert (Hs : starts_clean csvHeaderLine = true) by (vm_compute; reflexivity).
  assert (He : starts_clean (rev csvHeaderLine) = true)
    by (vm_compute; reflexivity).
  destruct (@trim_after_line csvHeaderLine tail Hne Hs He Htail)
    as (tail' & Htrim & Htail').
  assert (Hkeep : nonempty (trim csvHeaderLine) = true)
    by (vm_compute; reflexivity).
  assert (Hlines : exists rest,
             textLines (trim (csvHeaderLine ++ tail)) = csvHeaderLine :: rest).
  { rewrite Htrim. unfold textLines. destruct Htail' as [->|[t ->]].
    - rewrite app_nil_r, split_on_none by (vm_compute; reflexivity).
      cbn [filter]. rewrite Hkeep. eauto.
    - rewrite split_on_first by (vm_compute; reflexivity).
      cbn [filter]. rewrite Hkeep. eauto. }
  destruct Hlines as (rest & Hlines).
  rewrite Hlines in *. split; [reflexivity|].
  unfold parseSignalText in Hparse.
  assert (Hstart : startsWith (trim (csvHeaderLine ++ tail)) (js "[") = false).
  { rewrite Htrim. destruct csvHeaderLine as [|c0 cs] eqn:Ec; [congruence|].
    assert (Hc0 : c0 = hd 0%N csvHeaderLine) by (rewrite Ec; reflexivity).
    vm_compute in Hc0. subst c0. reflexivity. }
  rewrite Hstart in Hparse. unfold textPath in Hparse. cbv zeta in Hparse.
  fold (textLines (trim (csvHeaderLine ++ tail))) in Hparse.
  rewrite Hlines in Hparse. cbn [length Nat.eqb] in Hparse.
  bind_open Hparse.
  destruct v as [|r0 v]; [congruence|]. cbn [length Nat.eqb] in Hparse.
  injection Hparse as <-.
  eapply csv_table_has_no_numbers; [exact E | exact Hin].
Qed.

End CsvReadBack.

(* ================================================================== *)
(** * generateSuggestions *)
(* ================================================================== *)

Lemma filter_nonempty_existsb {A} (p : A -> bool) l :
  (0 <? length (filter p l))%nat = existsb p l.
Proof.
  induction l as [|a l IH]; [reflexivity|]. cbn [filter existsb].
  destruct (p a); [reflexivity | exact IH].
Qed.

Section Suggestions.
Context {host : Host}.

(** X22. generateSuggestions gives three suggestions at least and five at
    most, so that its cut at eight never takes one away: the three standing
    ones, one more when a record has the pattern 水下拉水上, and one more
    when a record has a turnover of 8 or above. *)
Theorem suggestions_are_three_to_five (records : list SignalRecord) :
  let with_pattern :=
    existsb (fun r => match sector_pattern r with
                      | Some PatternA => true
                      | _ => false
                      end) records in
  let with_turnover :=
    existsb (fun r => match turnover r with
                      | Some x => num_ge x (of_Z 8)
                      | None => false
                      end) records in
  length (generateSuggestions records)
  = (3 + (if with_pattern then 1 else 0) + (if with_turnover then 1 else 0))%nat
  /\ (3 <= length (generateSuggestions records) <= 5)%nat.
Proof.
  cbv zeta. unfold generateSuggestions. cbv zeta.
  rewrite !filter_nonempty_existsb.
  destruct (existsb _ records), (existsb _ records);
    cbn [app]; rewrite firstn_all2 by (cbn [length]; lia);
    cbn [length]; lia.
Qed.

End Suggestions.

(* ================================================================== *)
(** * The statements above, run on the sample host *)
(* ================================================================== *)

Lemma score_monotone_in_turnover_witness :
  num_ge (of_Z 8) (of_Z 3) = true
  /\ (cs_score (@calculateScore sample_host
                  {| in_sector_pattern := None; in_turnover := None |})
      <= cs_score (@calculateScore sample_host
                     {| in_sector_pattern := None;
                        in_turnover := Some (of_Z 3) |})
      <= cs_score (@calculateScore sample_host
                     {| in_sector_pattern := None;
                        in_turnover := Some (of_Z 8) |}))%Z.
Proof.
  split; [vm_compute; reflexivity|].
  apply (@score_monotone_in_turnover sample_host None (of_Z 3) (of_Z 8)).
  vm_compute. reflexivity.
Defined.

Lemma code_is_empty_or_digits_witness :
  exists r,
    @parseSignalText sample_host sample_table None = Ok [r]
    /\ In r [r]
    /\ (code r = []
        \/ ((6 <= length (code r))%nat /\ forallb is_digit (code r) = true)).
Proof.
  eexists. split; [vm_compute; reflexivity|].
  split; [left; reflexivity|].
  match goal with
  | |- code ?r = [] \/ _ =>
    apply (@code_is_empty_or_digits sample_host sample_table None [r] r)
  end.
  - vm_compute. reflexivity.
  - left. reflexivity.
Defined.

Lemma numeric_fields_are_null_or_nonzero_witness :
  exists r x,
    @parseSignalText sample_host sample_table None = Ok [r]
    /\ In r [r]
    /\ In (Some x) [turnover r; chg r; amount r; debt_ratio r]
    /\ isNaN x = false /\ num_truthy x = true.
Proof.
  eexists. eexists. split; [vm_compute; reflexivity|].
  split; [left; reflexivity|].
  match goal with
  | |- In _ [turnover ?r; _; _; _] /\ _ => pose (record := r)
  end.
  split; [left; reflexivity|].
  match goal with
  | |- isNaN ?x = false /\ _ =>
    apply (@numeric_fields_are_null_or_nonzero
             sample_host sample_table None [record] record x)
  end.
  - vm_compute. reflexivity.
  - left. reflexivity.
  - left. reflexivity.
Defined.

Lemma name_is_trimmed_witness :
  exists r,
    @parseSignalText sample_host sample_table None = Ok [r]
    /\ In r [r]
    /\ trim (name r) = name r
    /\ starts_clean (name r) = true
    /\ starts_clean (rev (name r)) = true.
Proof.
  eexists. split; [vm_compute; reflexivity|].
  split; [left; reflexivity|].
  match goal with
  | |- trim (name ?r) = _ /\ _ =>
    apply (@name_is_trimmed sample_host sample_table None [r] r)
  end.
  - vm_compute. reflexivity.
  - left. reflexivity.
Defined.

Lemma text_records_are_identified_witness :
  exists r,
    (startsWith (trim sample_table) (js "[") = false
     \/ exists e, @jsonPath sample_host (trim sample_table) None = Throw e)
    /\ @parseSignalText sample_host sample_table None = Ok [r]
    /\ In r [r]
    /\ (code r <> [] \/ name r <> []).
Proof.
  eexists. split; [left; vm_compute; reflexivity|].
  split; [vm_compute; reflexivity|].
  split; [left; reflexivity|].
  match goal with
  | |- code ?r <> [] \/ _ =>
    apply (@text_records_are_identified sample_host sample_table None [r] r)
  end.
  - left. vm_compute. reflexivity.
  - vm_compute. reflexivity.
  - left. reflexivity.
Defined.


Lemma label_line_is_label_colon_value_witness :
  match_label [] (js "代码: 600519") = Some (js "代码", js "600519")
  /\ exists c w,
       js "代码: 600519" = js "代码" ++ c :: w ++ js "600519"
       /\ js "代码" <> [] /\ existsb is_line_terminator (js "代码") = false
       /\ in_class (js "：:") c = true
       /\ forallb is_ws w = true
       /\ js "600519" <> []
       /\ existsb is_line_terminator (js "600519") = false.
Proof.
  split; [vm_compute; reflexivity|].
  apply (@label_line_is_label_colon_value
           (js "代码: 600519") (js "代码") (js "600519")).
  vm_compute. reflexivity.
Defined.

Lemma header_without_identity_reads_nothing_witness :
  looksLikeHeader (@toLowerCase sample_host (js "股票代码表,换手率")) = true
  /\ @tablePath sample_host [js "股票代码表,换手率"; js "600519,5"] None = Ok [].
Proof.
  assert (H1 : looksLikeHeader (@toLowerCase sample_host (js "股票代码表,换手率"))
               = true) by (vm_compute; reflexivity).
  split; [exact H1|].
  apply (@header_without_identity_reads_nothing
           sample_host (js "股票代码表,换手率") [js "600519,5"] None H1).
  intros cell Hin. vm_compute in Hin.
  destruct Hin as [<-|[<-|[]]]; split; intros X; vm_compute in X;
    discriminate X.
Defined.

Lemma headerless_code_and_name_witness :
  exists r,
    @tableRow sample_host [] COMMA None sample_line = Ok (Some r)
    /\ code r = js "600519" /\ name r = js "贵州茅台".
Proof.
  eexists. split; [vm_compute; reflexivity|].
  match goal with
  | |- code ?r = _ /\ _ =>
    exact (@headerless_code_and_name sample_host COMMA None sample_line r
             ltac:(vm_compute; reflexivity))
  end.
Defined.

Lemma unread_keys_are_ignored_witness :
  existsb (str_eqb (js "score")) read_keys = false
  /\ @normalizeRecord sample_host
       (VObject (assign [(js "code", VString (js "600519"))]
                        (js "score") (VNumber (of_Z 99)))) None
     = @normalizeRecord sample_host
         (VObject [(js "code", VString (js "600519"))]) None.
Proof.
  split; [vm_compute; reflexivity|].
  apply (@unread_keys_are_ignored sample_host
           [(js "code", VString (js "600519"))] (js "score")
           (VNumber (of_Z 99)) None).
  vm_compute. reflexivity.
Defined.

Lemma surrounding_space_is_ignored_witness :
  forallb is_ws (js " \n") = true
  /\ forallb is_ws (js "\t ") = true
  /\ @parseSignalText sample_host (js " \n" ++ sample_table ++ js "\t ") None
     = @parseSignalText sample_host sample_table None.
Proof.
  split; [vm_compute; reflexivity|]. split; [vm_compute; reflexivity|].
  apply (@surrounding_space_is_ignored sample_host
           (js " \n") sample_table (js "\t ") None);
    vm_compute; reflexivity.
Defined.

Lemma text_sectors_are_labels_witness :
  exists r,
    (startsWith (trim sample_table) (js "[") = false
     \/ exists e, @jsonPath sample_host (trim sample_table) None = Throw e)
    /\ @parseSignalText sample_host sample_table None = Ok [r]
    /\ In r [r]
    /\ length (sector r) = 2%nat
    /\ Forall sector_label (sector r).
Proof.
  eexists. split; [left; vm_compute; reflexivity|].
  split; [vm_compute; reflexivity|].
  split; [left; reflexivity|]. split; [reflexivity|].
  match goal with
  | |- Forall sector_label (sector ?r) =>
    apply (@text_sectors_are_labels sample_host sample_table None [r] r)
  end.
  - left. vm_compute. reflexivity.
  - vm_compute. reflexivity.
  - left. reflexivity.
Defined.

Lemma headerless_row_gets_default_date_witness :
  exists r,
    @tableRow sample_host [] COMMA (Some (js "2024-05-06")) sample_line
    = Ok (Some r)
    /\ date r = VString (js "2024-05-06").
Proof.
  eexists. split; [vm_compute; reflexivity|].
  match goal with
  | |- date ?r = _ =>
    exact (@headerless_row_gets_default_date
             sample_host COMMA (Some (js "2024-05-06")) sample_line r
             ltac:(vm_compute; reflexivity))
  end.
Defined.

Lemma rowToRecord_record_is_sound_witness :
  exists r,
    rowToRecord sample_form_row (js "2025-01-01") = Some r
    /\ code r = js "000519"
    /\ turnover r = Some (of_Z 0)
    /\ chg r = None
    /\ name r <> [] /\ trim (name r) = name r
    /\ (6 <= length (code r))%nat /\ forallb is_digit (code r) = true
    /\ sector r <> []
    /\ (forall x, In (Some x) [turnover r; chg r; amount r; debt_ratio r] ->
                  isNaN x = false).
Proof.
  eexists. split; [vm_compute; reflexivity|].
  split; [vm_compute; reflexivity|]. split; [vm_compute; reflexivity|].
  split; [reflexivity|].
  match goal with
  | |- name ?r <> [] /\ _ =>
    apply (@rowToRecord_record_is_sound sample_form_row (js "2025-01-01") r)
  end.
  vm_compute. reflexivity.
Defined.

Lemma codeToTsCode_of_normalized_witness :
  @normalizeCode sample_host (VString (js "sh600519")) = Ok (js "600519")
  /\ codeToTsCode (js "600519") = codeToTsCode (js "sh600519")
  /\ codeToTsCode (js "sh600519") = js "600519.SH".
Proof.
  split; [vm_compute; reflexivity|].
  split; [|vm_compute; reflexivity].
  apply (@codeToTsCode_of_normalized sample_host (js "sh600519") (js "600519")).
  vm_compute. reflexivity.
Defined.

Lemma parsed_records_are_never_high_priority_witness :
  exists rs,
    @parseSignalText sample_host sample_table None = Ok rs
    /\ length rs = 1%nat
    /\ highPriority (@getDailySummary sample_host rs) = 0%nat
    /\ (alternative (@getDailySummary sample_host rs)
        + eliminated (@getDailySummary sample_host rs) = length rs)%nat.
Proof.
  eexists. split; [vm_compute; reflexivity|]. split; [reflexivity|].
  match goal with
  | |- highPriority (getDailySummary ?rs) = _ /\ _ =>
    apply (@parsed_records_are_never_high_priority
             sample_host sample_table None rs)
  end.
  vm_compute. reflexivity.
Defined.

Lemma exported_csv_is_read_back_without_numbers_witness :
  exists csv r,
    @exportToCSV sample_host sample_export = Ok csv
    /\ @parseSignalText sample_host csv None = Ok [r]
    /\ @tablePath sample_host (textLines (trim csv)) None <> Ok []
    /\ In r [r]
    /\ code r = js "600519"
    /\ hd [] (textLines (trim csv)) = csvHeaderLine
    /\ turnover r = None /\ chg r = None /\ amount r = None
    /\ debt_ratio r = None.
Proof.
  eexists. eexists. split; [vm_compute; reflexivity|].
  split; [vm_compute; reflexivity|].
  split; [intros X; vm_compute in X; discriminate X|].
  split; [left; reflexivity|]. split; [vm_compute; reflexivity|].
  match goal with
  | |- hd [] (textLines (trim ?csv)) = _ /\ turnover ?r = _ /\ _ =>
    apply (@exported_csv_is_read_back_without_numbers
             sample_host sample_export csv None [r] r)
  end.
  - vm_compute. reflexivity.
  - vm_compute. reflexivity.
  - intros X. vm_compute in X. discriminate X.
  - left. reflexivity.
Defined.

Lemma headerless_row_scores_by_turnover_only_witness :
  exists r,
    @tableRow sample_host [] COMMA None (js "600519,贵州茅台,8.5%") = Ok (Some r)
    /\ score r = 30%Z
    /\ sector_pattern r = None /\ amount r = None /\ debt_ratio r = None
    /\ score r = turnover_bonus (turnover r)
    /\ (0 <= score r <= 30)%Z.
Proof.
  eexists. split; [vm_compute; reflexivity|]. split; [reflexivity|].
  match goal with
  | |- sector_pattern ?r = _ /\ _ =>
    apply (@headerless_row_scores_by_turnover_only
             sample_host COMMA None (js "600519,贵州茅台,8.5%") r)
  end.
  vm_compute. reflexivity.
Defined.
